(** * A shallow embedding of the txt2img driver and the video assembler

    The development follows [scripts/txt2img.py] and [scripts/make_video.py].
    Python integers are [Z], Python floats are binary64 [float]s, lists are
    [list]s, a [dict] with string keys is a [gmap string _], a raised exception
    is a constructor of [exn] carried by the error monad [result].  The
    pretrained networks, the samplers, the image codecs, the random number
    generator and the files the process reads are not part of the scripts:
    they are gathered in the interface [Backend], and every statement about
    the scripts is made for an arbitrary backend.

    Part I holds the model, Part II the lemmas and the theorems. *)

From Stdlib Require Import ZArith List String Ascii Lia Bool Floats.
From Stdlib Require Import DecimalString DecimalN.
From stdpp Require Import base option list strings gmap.
From Equations Require Import Equations.
From Equations.Prop Require Import Logic.

Local Open Scope Z_scope.

(** * Part I: the model *)

(** ** Exceptions and the error monad *)

Inductive exn : Set :=
| ValueError
| AssertionError
| IndexError
| KeyError
| AttributeError
| ZeroDivisionError
| RuntimeError
| FileNotFoundError
| FileExistsError
| IsADirectoryError
| TypeError.

Inductive result (A : Type) : Type :=
| Ok (a : A)
| Raise (e : exn).
Arguments Ok {A} a.
Arguments Raise {A} e.

#[global] Instance result_ret : MRet result := fun _ a => Ok a.
#[global] Instance result_bind : MBind result := fun _ _ k m =>
  match m with
  | Ok a => k a
  | Raise e => Raise e
  end.

(** [try: m except Exception: h]: every constructor of [exn] is a subclass
    of Python's [Exception]. *)
Definition try_except {A} (m : result A) (h : A) : A :=
  match m with
  | Ok a => a
  | Raise _ => h
  end.

(** The [assert] statement. *)
Definition assert (b : bool) : result unit :=
  if b then Ok tt else Raise AssertionError.

Definition of_option {A} (e : exn) (o : option A) : result A :=
  match o with
  | Some a => Ok a
  | None => Raise e
  end.

(** [a // b] on Python integers: floor division, as [Z.div]. *)
Definition floordiv (a b : Z) : result Z :=
  if b =? 0 then Raise ZeroDivisionError else Ok (a / b).

(** ** [chunk]: the prompt batcher

    [iter(lambda: tuple(islice(it, size)), ())] calls the lambda until it
    returns the empty tuple; each call consumes up to [size] items of the
    shared iterator [it]. *)

Equations? chunks {A : Type} (size : nat) (it : list A) : list (list A)
  by wf (length it) lt :=
  chunks size it with inspect (take size it) => {
    | exist _ [] _ := [];
    | exist _ (x :: b) Hb := (x :: b) :: chunks size (drop size it) }.
Proof.
  destruct size as [|k]; [done|]. destruct it as [|y ys]; [done|].
  simpl. rewrite length_drop. lia.
Qed.

(** [islice] refuses a negative stop argument; the error surfaces when the
    iterator is first advanced, which [list(...)] always does. *)
Definition chunk {A : Type} (it : list A) (size : Z) : result (list (list A)) :=
  if size <? 0 then Raise ValueError
  else Ok (chunks (Z.to_nat size) it).

(** ** Format specifications [{n:05}] and [{n:04}]

    Decimal digits, zero-filled on the left up to the width; the sign of a
    negative number counts in the width and stands before the zeros. *)

Definition digits (n : N) : string := NilEmpty.string_of_uint (N.to_uint n).

Fixpoint zeros (k : nat) : string :=
  match k with
  | O => EmptyString
  | S k => String "0" (zeros k)
  end.

Definition zfill (width : nat) (s : string) : string :=
  zeros (width - String.length s) +:+ s.

Definition format_int (width : nat) (n : Z) : string :=
  if n <? 0 then String "-" (zfill (width - 1) (digits (Z.abs_N n)))
  else zfill width (digits (Z.to_N n)).

(** [f"{counter:05}.png"] *)
Definition sample_name (counter : Z) : string :=
  format_int 5 counter +:+ ".png".

(** [f'grid-{grid_count:04}.png'] *)
Definition grid_name (grid_count : Z) : string :=
  "grid-" +:+ format_int 4 grid_count +:+ ".png".

(** Reading a zero-filled number back, used to tell file names apart. *)
Definition parse_nat (s : string) : option N :=
  N.of_uint <$> NilEmpty.uint_of_string s.

(** ** Command line options *)

Inductive precision_mode := Full | Autocast.

Record options := {
  opt_prompt : option string;
  opt_outdir : string;
  opt_skip_grid : bool;
  opt_skip_save : bool;
  opt_ddim_steps : Z;
  opt_plms : bool;
  opt_dpm_solver : bool;
  opt_laion400m : bool;
  opt_fixed_code : bool;
  opt_ddim_eta : float;
  opt_n_iter : Z;
  opt_H : Z;
  opt_W : Z;
  opt_C : Z;
  opt_f : Z;
  opt_n_samples : Z;
  opt_n_rows : Z;
  opt_scale : float;
  opt_from_file : option string;
  opt_config : string;
  opt_ckpt : string;
  opt_seed : Z;
  opt_precision : precision_mode
}.

(** The defaults of the argument parser. *)
Definition default_options : options := {|
  opt_prompt := Some "a painting of a virus monster playing guitar"%string;
  opt_outdir := "outputs/txt2img-samples";
  opt_skip_grid := false;
  opt_skip_save := false;
  opt_ddim_steps := 50;
  opt_plms := false;
  opt_dpm_solver := false;
  opt_laion400m := false;
  opt_fixed_code := false;
  opt_ddim_eta := 0%float;
  opt_n_iter := 2;
  opt_H := 512;
  opt_W := 512;
  opt_C := 4;
  opt_f := 8;
  opt_n_samples := 3;
  opt_n_rows := 0;
  opt_scale := 7.5%float;
  opt_from_file := None;
  opt_config := "configs/stable-diffusion/v1-inference.yaml";
  opt_ckpt := "models/ldm/stable-diffusion-v1/model.ckpt";
  opt_seed := 42;
  opt_precision := Autocast
|}.

(** [--laion400m] overrides three options as a bundle. *)
Definition apply_laion400m (opt : options) : options :=
  if opt_laion400m opt then {|
    opt_prompt := opt_prompt opt;
    opt_outdir := "outputs/txt2img-samples-laion400m";
    opt_skip_grid := opt_skip_grid opt;
    opt_skip_save := opt_skip_save opt;
    opt_ddim_steps := opt_ddim_steps opt;
    opt_plms := opt_plms opt;
    opt_dpm_solver := opt_dpm_solver opt;
    opt_laion400m := opt_laion400m opt;
    opt_fixed_code := opt_fixed_code opt;
    opt_ddim_eta := opt_ddim_eta opt;
    opt_n_iter := opt_n_iter opt;
    opt_H := opt_H opt;
    opt_W := opt_W opt;
    opt_C := opt_C opt;
    opt_f := opt_f opt;
    opt_n_samples := opt_n_samples opt;
    opt_n_rows := opt_n_rows opt;
    opt_scale := opt_scale opt;
    opt_from_file := opt_from_file opt;
    opt_config := "configs/latent-diffusion/txt2img-1p4B-eval.yaml";
    opt_ckpt := "models/ldm/text2img-large/model.ckpt";
    opt_seed := opt_seed opt;
    opt_precision := opt_precision opt
  |} else opt.

(** ** The values of the libraries

    What the scripts only pass around is left opaque: array elements, the
    network built from a configuration, a state dictionary, conditioning and
    latent tensors, the contents of a noise tensor and the state of the
    random number generators. *)

Class Carriers := {
  scalar : Type;
  network : Type;
  weights : Type;
  model_config : Type;
  cond : Type;
  latent : Type;
  noise : Type;
  rng : Type
}.

Inductive dtype := UInt8 | Float16 | Float32 | Float64.

#[global] Instance dtype_eq_dec : EqDecision dtype.
Proof. solve_decision. Defined.

Inductive device := Cpu | Cuda.

#[global] Instance device_eq_dec : EqDecision device.
Proof. solve_decision. Defined.

(** A numpy array: [x.shape], [x.dtype] and the elements in row-major
    order.  A batch of images, an array of shape (B, H, W, C), is the list
    of its B images of shape (H, W, C): [a[i]] is the list lookup and
    [a[i] = y] the list update. *)
Record ndarray `{Carriers} := {
  shape : list nat;
  dtype_of : dtype;
  data : list scalar
}.

(** A PIL image: [size] is (width, height). *)
Record pil_image `{Carriers} := {
  pil_width : nat;
  pil_height : nat;
  pil_bands : nat;
  pil_pixels : list scalar
}.

(** A tensor made by [torch.randn]. *)
Record tensor `{Carriers} := {
  t_shape : list Z;
  t_device : device;
  t_data : noise
}.

(** The entries of the dictionary that [torch.load] returns. *)
Inductive ckpt_value `{Carriers} :=
| VInt (n : Z)
| VStateDict (sd : weights)
| VOther.

(** The model object: the network, where it lives, and its mode. *)
Record model `{Carriers} := {
  net : network;
  model_device : device;
  training : bool
}.

Inductive sampler `{Carriers} :=
| DDIMSampler (m : model)
| PLMSSampler (m : model)
| DPMSolverSampler (m : model).

(** The keyword arguments of [sampler.sample] at its one call site. *)
Record sample_args `{Carriers} := {
  arg_S : Z;
  arg_conditioning : cond;
  arg_batch_size : Z;
  arg_shape : list Z;
  arg_verbose : bool;
  arg_unconditional_guidance_scale : float;
  arg_unconditional_conditioning : option cond;
  arg_eta : float;
  arg_x_T : option tensor
}.

(** ** The libraries and the environment

    Functions of the libraries are functions of their arguments and of the
    generator state they draw from.  A call that the scripts guard against
    returns a [result]. *)

Class Backend `{Carriers} := {
  (** [torch.cuda.is_available()] *)
  cuda_is_available : bool;
  (** [seed_everything(seed)]: the generator state it installs *)
  seed_everything : Z -> rng;
  (** [OmegaConf.load(path)] *)
  OmegaConf_load : string -> result model_config;
  (** [torch.load(path, map_location="cpu")] *)
  torch_load : string -> result (gmap string ckpt_value);
  (** [instantiate_from_config(config.model)]: initialising the weights
      draws from the generator *)
  instantiate_from_config : model_config -> rng -> result (network * rng);
  (** [model.load_state_dict(sd, strict=False)]: the network with the
      weights merged, the missing and the unexpected keys *)
  load_state_dict : network -> weights -> network * (list string * list string);
  (** the values [torch.randn] fills a tensor of a given shape with *)
  randn_fill : rng -> list Z -> device -> noise * rng;
  (** [model.get_learned_conditioning(prompts)] *)
  get_learned_conditioning : model -> list string -> cond;
  (** [sampler.sample(...)]: the arguments of each [img_callback] call in
      order, the final latent, and the generator state afterwards *)
  sample : sampler -> sample_args -> rng -> list (latent * latent) * latent * rng;
  (** [model.decode_first_stage(z)] followed by the remapping to [0,1], the
      clamp and the permutation to (B, H, W, C), as a numpy batch *)
  decode_first_stage : model -> latent -> list ndarray;
  (** the feature extractor and [safety_checker(images=..., clip_input=...)] *)
  safety_checker : list ndarray -> list ndarray * list bool;
  (** [Image.open(path)] *)
  Image_open : string -> result pil_image;
  (** pixel data of [im.convert("RGB")] *)
  convert_rgb : pil_image -> list scalar;
  (** pixel data of [im.resize((w, h))] *)
  resample : pil_image -> nat -> nat -> result (list scalar);
  (** [v / 255.0] on an array element *)
  true_divide_255 : scalar -> scalar;
  (** conversion of an array element to a dtype *)
  cast : dtype -> scalar -> scalar;
  (** [open(path, "r").read().splitlines()] *)
  read_lines : string -> result (list string)
}.

(** ** Array and image operations built from the backend *)

Section Driver.
Context `{Backend}.

(** [im.convert("RGB")] *)
Definition convert_RGB (im : pil_image) : pil_image := {|
  pil_width := pil_width im;
  pil_height := pil_height im;
  pil_bands := 3;
  pil_pixels := convert_rgb im
|}.

(** [im.resize((w, h))] *)
Definition resize (im : pil_image) (w h : nat) : result pil_image :=
  px ← resample im w h;
  Ok {| pil_width := w; pil_height := h; pil_bands := pil_bands im;
        pil_pixels := px |}.

(** [np.array(im)] *)
Definition np_array (im : pil_image) : ndarray := {|
  shape := [pil_height im; pil_width im; pil_bands im];
  dtype_of := UInt8;
  data := pil_pixels im
|}.

(** [a / 255.0] *)
Definition div255 (a : ndarray) : ndarray := {|
  shape := shape a;
  dtype_of := Float64;
  data := true_divide_255 <$> data a
|}.

(** [a.astype(d)] *)
Definition astype (d : dtype) (a : ndarray) : ndarray := {|
  shape := shape a;
  dtype_of := d;
  data := cast d <$> data a
|}.

(** ** The safety filter *)

Definition load_replacement (x : ndarray) : ndarray :=
  try_except
    (let hwc := shape x in
     im ← Image_open "assets/rick.jpeg";
     let im := convert_RGB im in
     w ← of_option IndexError (hwc !! 1%nat);
     h ← of_option IndexError (hwc !! 0%nat);
     y ← resize im w h;
     let y := astype (dtype_of x) (div255 (np_array y)) in
     _ ← assert (bool_decide (shape y = shape x));
     Ok y)
    x.

(** [for i in range(len(has_nsfw_concept))], over the indices still to
    visit. *)
Fixpoint replace_flagged (has_nsfw_concept : list bool) (indices : list nat)
    (x_checked_image : list ndarray) : result (list ndarray) :=
  match indices with
  | [] => Ok x_checked_image
  | i :: rest =>
      flag ← of_option IndexError (has_nsfw_concept !! i);
      x_checked_image ←
        (if flag : bool then
           x ← of_option IndexError (x_checked_image !! i);
           Ok (<[i := load_replacement x]> x_checked_image)
         else Ok x_checked_image);
      replace_flagged has_nsfw_concept rest x_checked_image
  end.

Definition check_safety (x_image : list ndarray)
    : result (list ndarray * list bool) :=
  let '(x_checked_image, has_nsfw_concept) := safety_checker x_image in
  _ ← assert (bool_decide (length x_checked_image = length has_nsfw_concept));
  x_checked_image ←
    replace_flagged has_nsfw_concept (seq 0 (length has_nsfw_concept))
      x_checked_image;
  Ok (x_checked_image, has_nsfw_concept).

(** ** The model loader *)

(** [model.cuda()] raises when no CUDA device can be initialised. *)
Definition cuda (m : model) : result model :=
  if cuda_is_available
  then Ok {| net := net m; model_device := Cuda; training := training m |}
  else Raise RuntimeError.

(** [model.eval()] *)
Definition model_eval (m : model) : model :=
  {| net := net m; model_device := model_device m; training := false |}.

(** [model.to(device)] *)
Definition model_to (dev : device) (m : model) : model :=
  {| net := net m; model_device := dev; training := training m |}.

(** The printing of the step count and of the key lists has no effect on
    the value returned and is left out. *)
Definition load_model_from_config (config : model_config) (ckpt : string)
    (verbose : bool) (g : rng) : result (model * rng) :=
  pl_sd ← torch_load ckpt;
  entry ← of_option KeyError (pl_sd !! "state_dict"%string);
  sd ← match entry with
       | VStateDict sd => Ok sd
       | _ => Raise AttributeError
       end;
  '(network, g) ← instantiate_from_config config g;
  let '(network, (m, u)) := load_state_dict network sd in
  let model := {| net := network; model_device := Cpu; training := true |} in
  model ← cuda model;
  Ok (model_eval model, g).

(** Lines 249 to 253 of [main]: the load and the choice of the device. *)
Definition load_and_place (config : model_config) (ckpt : string) (g : rng)
    : result (model * device * rng) :=
  '(model, g) ← load_model_from_config config ckpt false g;
  let device := if cuda_is_available then Cuda else Cpu in
  Ok (model_to device model, device, g).

(** ** The sampler selector *)

Definition select_sampler (opt : options) (model : model) : sampler :=
  if opt_dpm_solver opt then DPMSolverSampler model
  else if opt_plms opt then PLMSSampler model
  else DDIMSampler model.

(** ** The prompt batches *)

Definition prompt_data (opt : options) : result (list (list string)) :=
  let batch_size := opt_n_samples opt in
  match opt_from_file opt with
  | None | Some EmptyString =>
      prompt ← of_option AssertionError (opt_prompt opt);
      Ok [replicate (Z.to_nat batch_size) prompt]
  | Some from_file =>
      data ← read_lines from_file;
      chunk data batch_size
  end.

(** ** The output directory

    After the three [os.makedirs] calls the output directory holds the
    subdirectories [samples], [process] and [process2], and whatever else
    was there.  A subdirectory is the set of the names in it. *)

Inductive node := File | Dir (names : gset string).

Inductive subdir := Samples | Process | Process2.

Inductive out_dir := OutRoot | OutSub (d : subdir).

#[global] Instance subdir_eq_dec : EqDecision subdir.
Proof. solve_decision. Defined.

#[global] Instance out_dir_eq_dec : EqDecision out_dir.
Proof. solve_decision. Defined.

Record workdir := {
  samples_dir : gset string;
  process_dir : gset string;
  process2_dir : gset string;
  root_rest : gmap string node
}.

(** [os.makedirs(os.path.join(outpath, name), exist_ok=True)]: the names
    found in the subdirectory afterwards. *)
Definition makedirs_sub (name : string) (root : gmap string node)
    : result (gset string) :=
  match root !! name with
  | None => Ok ∅
  | Some (Dir names) => Ok names
  | Some File => Raise FileExistsError
  end.

(** [os.makedirs(opt.outdir, exist_ok=True)] on a directory that may not
    exist yet ([None]), then the three subdirectories. *)
Definition open_outdir (root0 : option (gmap string node)) : result workdir :=
  let root := default ∅ root0 in
  samples ← makedirs_sub "samples" root;
  process ← makedirs_sub "process" root;
  process2 ← makedirs_sub "process2" root;
  Ok {| samples_dir := samples;
        process_dir := process;
        process2_dir := process2;
        root_rest := delete "samples"%string
                       (delete "process"%string
                          (delete "process2"%string root)) |}.

Definition listing (d : subdir) (w : workdir) : gset string :=
  match d with
  | Samples => samples_dir w
  | Process => process_dir w
  | Process2 => process2_dir w
  end.

(** [len(os.listdir(outpath))] *)
Definition len_listdir_outpath (w : workdir) : Z :=
  Z.of_nat (size (root_rest w)) + 3.

(** [len(os.listdir(sample_path))] *)
Definition len_listdir (d : subdir) (w : workdir) : Z :=
  Z.of_nat (size (listing d w)).

(** Writing a file into a subdirectory creates it or overwrites it. *)
Definition write_sub (d : subdir) (name : string) (w : workdir) : workdir :=
  match d with
  | Samples =>
      {| samples_dir := {[name]} ∪ samples_dir w;
         process_dir := process_dir w;
         process2_dir := process2_dir w;
         root_rest := root_rest w |}
  | Process =>
      {| samples_dir := samples_dir w;
         process_dir := {[name]} ∪ process_dir w;
         process2_dir := process2_dir w;
         root_rest := root_rest w |}
  | Process2 =>
      {| samples_dir := samples_dir w;
         process_dir := process_dir w;
         process2_dir := {[name]} ∪ process2_dir w;
         root_rest := root_rest w |}
  end.

(** Writing a file into the output directory itself fails on the name of
    a directory. *)
Definition write_root (name : string) (w : workdir) : result workdir :=
  match root_rest w !! name with
  | Some (Dir _) => Raise IsADirectoryError
  | _ =>
      Ok {| samples_dir := samples_dir w;
            process_dir := process_dir w;
            process2_dir := process2_dir w;
            root_rest := <[name := File]> (root_rest w) |}
  end.

(** ** The state of a run *)

(** What a run does to the outside, in order. *)
Inductive event :=
| EvRandn (shape : list Z) (dev : device)
| EvSample (args : sample_args)
| EvSave (dir : out_dir) (name : string).

Record state := {
  fs : workdir;
  base_count : Z;
  grid_count : Z;
  processList : list latent;
  process2List : list latent;
  all_samples : list (list ndarray);
  gen : rng;
  trace : list event
}.

(** What [main] has computed when the generation loop starts. *)
Record context := {
  ctx_model : model;
  ctx_device : device;
  ctx_sampler : sampler;
  ctx_batch_size : Z;
  ctx_n_rows : Z;
  ctx_data : list (list string);
  ctx_start_code : option tensor
}.

(** [img.save(os.path.join(<subdirectory>, name))] *)
Definition img_save_sub (d : subdir) (name : string) (st : state) : state := {|
  fs := write_sub d name (fs st);
  base_count := base_count st;
  grid_count := grid_count st;
  processList := processList st;
  process2List := process2List st;
  all_samples := all_samples st;
  gen := gen st;
  trace := trace st ++ [EvSave (OutSub d) name]
|}.

(** [img.save(os.path.join(outpath, name))] *)
Definition img_save_root (name : string) (st : state) : result state :=
  fs' ← write_root name (fs st);
  Ok {| fs := fs';
        base_count := base_count st;
        grid_count := grid_count st;
        processList := processList st;
        process2List := process2List st;
        all_samples := all_samples st;
        gen := gen st;
        trace := trace st ++ [EvSave OutRoot name] |}.

(** [torch.randn(shape, device=device)] refuses a negative dimension. *)
Definition torch_randn (shape : list Z) (dev : device) (g : rng)
    : result (tensor * rng) :=
  if forallb (fun d => 0 <=? d) shape then
    let '(values, g) := randn_fill g shape dev in
    Ok ({| t_shape := shape; t_device := dev; t_data := values |}, g)
  else Raise RuntimeError.

(** ** [main] up to the generation loop (lines 239 to 299) *)

Definition setup (opt : options) (root0 : option (gmap string node))
    : result (context * state) :=
  let opt := apply_laion400m opt in
  let g := seed_everything (opt_seed opt) in
  config ← OmegaConf_load (opt_config opt);
  '(model, device, g) ← load_and_place config (opt_ckpt opt) g;
  let sampler := select_sampler opt model in
  let batch_size := opt_n_samples opt in
  let n_rows := if 0 <? opt_n_rows opt then opt_n_rows opt else batch_size in
  data ← prompt_data opt;
  out ← open_outdir root0;
  let base_count := len_listdir Samples out in
  let grid_count := len_listdir_outpath out - 1 in
  '(start_code, g, tr) ←
    (if opt_fixed_code opt then
       h ← floordiv (opt_H opt) (opt_f opt);
       w ← floordiv (opt_W opt) (opt_f opt);
       let shape := [opt_n_samples opt; opt_C opt; h; w] in
       '(t, g) ← torch_randn shape device g;
       Ok (Some t, g, [EvRandn shape device])
     else Ok (None, g, []));
  Ok ({| ctx_model := model;
         ctx_device := device;
         ctx_sampler := sampler;
         ctx_batch_size := batch_size;
         ctx_n_rows := n_rows;
         ctx_data := data;
         ctx_start_code := start_code |},
      {| fs := out;
         base_count := base_count;
         grid_count := grid_count;
         processList := [];
         process2List := [];
         all_samples := [];
         gen := g;
         trace := tr |}).

(** ** The generation loop (lines 301 to 436) *)

(** The callback handed to the sampler. *)
Definition save_step (prev imgx0 : latent) (st : state) : state := {|
  fs := fs st;
  base_count := base_count st;
  grid_count := grid_count st;
  processList := processList st ++ [prev];
  process2List := process2List st ++ [imgx0];
  all_samples := all_samples st;
  gen := gen st;
  trace := trace st
|}.

(** [for i, sample in enumerate(checked_image_torch)]: one file per image
    of the batch, named by the running counter. *)
Fixpoint save_batch (d : subdir) (images : list ndarray) (counter : Z)
    (st : state) : Z * state :=
  match images with
  | [] => (counter, st)
  | _ :: images =>
      save_batch d images (counter + 1) (img_save_sub d (sample_name counter) st)
  end.

(** [for imgstep in ...List]: every snapshot is decoded and saved. *)
Fixpoint save_frames (m : model) (d : subdir) (frames : list latent)
    (counter : Z) (st : state) : Z * state :=
  match frames with
  | [] => (counter, st)
  | imgstep :: frames =>
      let '(counter, st) :=
        save_batch d (decode_first_stage m imgstep) counter st in
      save_frames m d frames counter st
  end.

Definition clear_lists (st : state) : state := {|
  fs := fs st;
  base_count := base_count st;
  grid_count := grid_count st;
  processList := [];
  process2List := [];
  all_samples := all_samples st;
  gen := gen st;
  trace := trace st
|}.

Definition saveImages (m : model) (st : state) : state :=
  let counter := 0 in
  let '(_, st) := save_frames m Process2 (process2List st) counter st in
  let counter := 0 in
  let '(_, st) := save_frames m Process (processList st) counter st in
  clear_lists st.

(** The call of the sampler: its callbacks run [save_step]. *)
Definition run_sampler (s : sampler) (args : sample_args) (st : state)
    : latent * state :=
  let '(steps, samples_ddim, g) := sample s args (gen st) in
  let st := {|
    fs := fs st;
    base_count := base_count st;
    grid_count := grid_count st;
    processList := processList st;
    process2List := process2List st;
    all_samples := all_samples st;
    gen := g;
    trace := trace st ++ [EvSample args]
  |} in
  (samples_ddim, fold_left (fun st step => save_step step.1 step.2 st) steps st).

(** [for x_sample in x_checked_image_torch], with [base_count]. *)
Definition save_samples (images : list ndarray) (st : state) : state :=
  let '(counter, st) := save_batch Samples images (base_count st) st in
  {| fs := fs st;
     base_count := counter;
     grid_count := grid_count st;
     processList := processList st;
     process2List := process2List st;
     all_samples := all_samples st;
     gen := gen st;
     trace := trace st |}.

Definition append_samples (images : list ndarray) (st : state) : state := {|
  fs := fs st;
  base_count := base_count st;
  grid_count := grid_count st;
  processList := processList st;
  process2List := process2List st;
  all_samples := all_samples st ++ [images];
  gen := gen st;
  trace := trace st
|}.

(** The body of [for prompts in tqdm(data, desc="data")]. *)
Definition sample_prompts (opt : options) (ctx : context)
    (prompts : list string) (st : state) : result state :=
  let model := ctx_model ctx in
  let batch_size := ctx_batch_size ctx in
  let uc :=
    if negb (opt_scale opt =? 1)%float
    then Some (get_learned_conditioning model
                 (replicate (Z.to_nat batch_size) EmptyString))
    else None in
  let c := get_learned_conditioning model prompts in
  h ← floordiv (opt_H opt) (opt_f opt);
  w ← floordiv (opt_W opt) (opt_f opt);
  let shape := [opt_C opt; h; w] in
  let args := {|
    arg_S := opt_ddim_steps opt;
    arg_conditioning := c;
    arg_batch_size := opt_n_samples opt;
    arg_shape := shape;
    arg_verbose := false;
    arg_unconditional_guidance_scale := opt_scale opt;
    arg_unconditional_conditioning := uc;
    arg_eta := opt_ddim_eta opt;
    arg_x_T := ctx_start_code ctx
  |} in
  let '(samples_ddim, st) := run_sampler (ctx_sampler ctx) args st in
  let st := saveImages model st in
  let x_samples_ddim := decode_first_stage model samples_ddim in
  '(x_checked_image, has_nsfw_concept) ← check_safety x_samples_ddim;
  let st := if opt_skip_save opt then st else save_samples x_checked_image st in
  let st := if opt_skip_grid opt then st else append_samples x_checked_image st in
  Ok st.

(** A [for] loop whose body may raise. *)
Fixpoint for_each {A : Type} (body : A -> state -> result state)
    (xs : list A) (st : state) : result state :=
  match xs with
  | [] => Ok st
  | x :: xs => st ← body x st; for_each body xs st
  end.

(** The grid: [torch.stack] refuses an empty list. *)
Definition save_grid (st : state) : result state :=
  _ ← (if all_samples st is [] then Raise RuntimeError else Ok tt);
  st ← img_save_root (grid_name (grid_count st)) st;
  Ok {| fs := fs st;
        base_count := base_count st;
        grid_count := grid_count st + 1;
        processList := processList st;
        process2List := process2List st;
        all_samples := all_samples st;
        gen := gen st;
        trace := trace st |}.

(** [for n in trange(opt.n_iter)] around [for prompts in tqdm(data)]. *)
Definition sampling_loop (opt : options) (ctx : context) (st : state)
    : result state :=
  for_each
    (fun (n : nat) st => for_each (sample_prompts opt ctx) (ctx_data ctx) st)
    (seq 0 (Z.to_nat (opt_n_iter opt))) st.

Definition generate (opt : options) (ctx : context) (st : state)
    : result state :=
  st ← sampling_loop opt ctx st;
  if opt_skip_grid opt then Ok st else save_grid st.

Definition main (opt : options) (root0 : option (gmap string node))
    : result state :=
  '(ctx, st) ← setup opt root0;
  generate (apply_laion400m opt) ctx st.

(** ** Reading a trace *)

(** The names saved into a directory, in order. *)
Definition saves_in (dir : out_dir) (tr : list event) : list string :=
  omap (fun e => match e with
                 | EvSave dir' name =>
                     if decide (dir' = dir) then Some name else None
                 | _ => None
                 end) tr.

(** The [x_T] argument of every sampler invocation, in order. *)
Definition sampler_noise (tr : list event) : list (option tensor) :=
  omap (fun e => match e with
                 | EvSample args => Some (arg_x_T args)
                 | _ => None
                 end) tr.

(** The shapes of the noise tensors the driver itself draws, in order. *)
Definition randn_calls (tr : list event) : list (list Z) :=
  omap (fun e => match e with
                 | EvRandn shape _ => Some shape
                 | _ => None
                 end) tr.


(** Saving a list of names into a subdirectory, one after the other. *)
Definition save_names (d : subdir) (names : list string) (st : state)
    : state := {|
  fs := foldl (fun w name => write_sub d name w) (fs st) names;
  base_count := base_count st;
  grid_count := grid_count st;
  processList := processList st;
  process2List := process2List st;
  all_samples := all_samples st;
  gen := gen st;
  trace := trace st ++ (EvSave (OutSub d) <$> names)
|}.

(** A number of images that one batch of the run can hold: the length of
    what the classifier returns on the decoded result of a sampler call
    made with the batch size of the options. *)
Definition batch_size_of (opt : options) (ctx : context) (n : nat) : Prop :=
  exists args g,
    arg_batch_size args = opt_n_samples opt /\
    n = length (safety_checker
                  (decode_first_stage (ctx_model ctx)
                     (sample (ctx_sampler ctx) args g).1.2)).1.

End Driver.

(** ** The video assembler ([scripts/make_video.py]) *)

Module MakeVideo.

(** What [cv2.imread] returns for a readable image: [frame.shape] is
    (height, width, layers). *)
Record frame := {
  height : nat;
  width : nat;
  layers : nat;
  pixels : list N
}.

(** A folder: the names in the order [os.listdir] gives them, each with
    what [cv2.imread] makes of it ([None] for what it cannot decode). *)
Definition folder := list (string * option frame).

(** The container being written by a [cv2.VideoWriter]. *)
Record video := {
  video_name : string;
  fourcc : Z;
  fps : Z;
  frame_size : nat * nat;
  frames : list frame
}.

(** [s.endswith(suffix)] *)
Definition endswith (s suffix : string) : bool :=
  let n := String.length s in
  let k := String.length suffix in
  (k <=? n)%nat && String.eqb (substring (n - k) k s) suffix.

Definition listdir (image_folder : folder) : list string :=
  image_folder.*1.

(** [cv2.imread(os.path.join(image_folder, name))] returns [None] instead
    of raising. *)
Fixpoint imread (image_folder : folder) (name : string) : option frame :=
  match image_folder with
  | [] => None
  | (name', content) :: rest =>
      if String.eqb name' name then content else imread rest name
  end.

(** [video.write(img)]: a missing image raises; a frame whose size is not
    the one the writer was opened with is not written. *)
Definition write (img : option frame) (v : video) : result video :=
  match img with
  | None => Raise TypeError
  | Some fr =>
      if bool_decide ((width fr, height fr) = frame_size v)
      then Ok {| video_name := video_name v;
                 fourcc := fourcc v;
                 fps := fps v;
                 frame_size := frame_size v;
                 frames := frames v ++ [fr] |}
      else Ok v
  end.

(** [for image in images: video.write(cv2.imread(...))] *)
Fixpoint write_all (image_folder : folder) (images : list string) (v : video)
    : result video :=
  match images with
  | [] => Ok v
  | image :: images =>
      v ← write (imread image_folder image) v;
      write_all image_folder images v
  end.

Definition write_video (video_name : string) (image_folder : folder)
    : result video :=
  let images := filter (fun img => endswith img ".png" = true)
                  (listdir image_folder) in
  first ← of_option IndexError (images !! 0%nat);
  frame ← of_option AttributeError (imread image_folder first);
  let '(height, width, layers) := (height frame, width frame, layers frame) in
  let video := {| video_name := video_name;
                  fourcc := 0;
                  fps := 5;
                  frame_size := (width, height);
                  frames := [] |} in
  write_all image_folder images video.

(** An entry of a folder whose name ends in [.png]. *)
Definition is_png (entry : string * option frame) : Prop :=
  endswith entry.1 ".png" = true.

End MakeVideo.

(** ** A small backend

    Integers for array elements, a batch count for a latent, the requested
    shape and the generator state for the contents of a noise tensor.  The
    sampler calls its callback once and returns a latent of [batch_size]
    images; the classifier flags an image whose first element is 1. *)

Module Toy.

Definition carriers : Carriers := {|
  scalar := Z;
  network := unit;
  weights := unit;
  model_config := unit;
  cond := list string;
  latent := nat;
  noise := Z * list Z;
  rng := Z
|}.

#[local] Existing Instance carriers.

Definition blank : @ndarray carriers :=
  {| shape := [1; 1; 3]%nat; dtype_of := Float32; data := [0; 0; 0] |}.

Definition flagged (x : @ndarray carriers) : bool :=
  match data x with
  | v :: _ => v =? 1
  | [] => false
  end.

Definition backend (has_cuda has_asset : bool) (lines : list string)
    : @Backend carriers := {|
  cuda_is_available := has_cuda;
  seed_everything := fun seed => seed;
  OmegaConf_load := fun _ => Ok tt;
  torch_load := fun _ =>
    Ok ({[ "state_dict"%string := VStateDict (tt : @weights carriers) ]});
  instantiate_from_config := fun _ g => Ok (tt, g + 1);
  load_state_dict := fun n _ => (n, ([], []));
  randn_fill := fun g shape _ => ((g, shape), g + 1);
  get_learned_conditioning := fun _ prompts => prompts;
  sample := fun _ args g =>
    let n := Z.to_nat (arg_batch_size args) in
    ([(n, n)], n, g + 1);
  decode_first_stage := fun _ z => replicate z blank;
  safety_checker := fun xs => (xs, flagged <$> xs);
  Image_open := fun _ =>
    if has_asset
    then Ok {| pil_width := 1; pil_height := 1; pil_bands := 3;
               pil_pixels := [255; 0; 0] |}
    else Raise FileNotFoundError;
  convert_rgb := fun im => pil_pixels im;
  resample := fun im w h => Ok (replicate (w * h * pil_bands im) 7);
  true_divide_255 := fun v => v;
  cast := fun _ v => v;
  read_lines := fun _ => Ok lines
|}.

(** An image of shape (1, 2, 3) that the classifier flags. *)
Definition flagged_image : @ndarray carriers :=
  {| shape := [1; 2; 3]%nat; dtype_of := Float32;
     data := [1; 0; 0; 0; 0; 0] |}.

(** What the placeholder of the small backend becomes at that shape. *)
Definition placeholder_1x2 : @ndarray carriers :=
  {| shape := [1; 2; 3]%nat; dtype_of := Float32;
     data := [7; 7; 7; 7; 7; 7] |}.

(** A folder of two frames of width 3 and height 2, listed out of numeric
    order, beside a file that is no image. *)
Definition frames_folder : MakeVideo.folder :=
  [("00001.png"%string,
    Some {| MakeVideo.height := 2; MakeVideo.width := 3;
            MakeVideo.layers := 3; MakeVideo.pixels := [1%N] |});
   ("notes.txt"%string, None);
   ("00000.png"%string,
    Some {| MakeVideo.height := 2; MakeVideo.width := 3;
            MakeVideo.layers := 3; MakeVideo.pixels := [0%N] |})].

(** The output directory as one earlier run of one sample left it. *)
Definition earlier_run : option (gmap string node) :=
  Some {[ "samples"%string := Dir {[ "00000.png"%string ]};
          "process"%string := Dir {[ "00000.png"%string ]};
          "process2"%string := Dir {[ "00000.png"%string ]};
          "grid-0002.png"%string := File ]}.

(** One prompt, one sample, one iteration. *)
Definition one_sample : options := {|
  opt_prompt := Some "x"%string;
  opt_outdir := "out";
  opt_skip_grid := false;
  opt_skip_save := false;
  opt_ddim_steps := 1;
  opt_plms := false;
  opt_dpm_solver := false;
  opt_laion400m := false;
  opt_fixed_code := true;
  opt_ddim_eta := 0%float;
  opt_n_iter := 1;
  opt_H := 16;
  opt_W := 16;
  opt_C := 4;
  opt_f := 8;
  opt_n_samples := 1;
  opt_n_rows := 0;
  opt_scale := 7.5%float;
  opt_from_file := None;
  opt_config := "config.yaml";
  opt_ckpt := "model.ckpt";
  opt_seed := 42;
  opt_precision := Autocast
|}.

(** [one_sample] with other values of [--n_iter], [--n_samples] and
    [--from-file]. *)
Definition with_batches (n_iter n_samples : Z) (from_file : option string)
    : options := {|
  opt_prompt := opt_prompt one_sample;
  opt_outdir := opt_outdir one_sample;
  opt_skip_grid := opt_skip_grid one_sample;
  opt_skip_save := opt_skip_save one_sample;
  opt_ddim_steps := opt_ddim_steps one_sample;
  opt_plms := opt_plms one_sample;
  opt_dpm_solver := opt_dpm_solver one_sample;
  opt_laion400m := opt_laion400m one_sample;
  opt_fixed_code := opt_fixed_code one_sample;
  opt_ddim_eta := opt_ddim_eta one_sample;
  opt_n_iter := n_iter;
  opt_H := opt_H one_sample;
  opt_W := opt_W one_sample;
  opt_C := opt_C one_sample;
  opt_f := opt_f one_sample;
  opt_n_samples := n_samples;
  opt_n_rows := opt_n_rows one_sample;
  opt_scale := opt_scale one_sample;
  opt_from_file := from_file;
  opt_config := opt_config one_sample;
  opt_ckpt := opt_ckpt one_sample;
  opt_seed := opt_seed one_sample;
  opt_precision := opt_precision one_sample
|}.

(** [one_sample] with [--skip_save]. *)
Definition skip_save_run : options := {|
  opt_prompt := opt_prompt one_sample;
  opt_outdir := opt_outdir one_sample;
  opt_skip_grid := opt_skip_grid one_sample;
  opt_skip_save := true;
  opt_ddim_steps := opt_ddim_steps one_sample;
  opt_plms := opt_plms one_sample;
  opt_dpm_solver := opt_dpm_solver one_sample;
  opt_laion400m := opt_laion400m one_sample;
  opt_fixed_code := opt_fixed_code one_sample;
  opt_ddim_eta := opt_ddim_eta one_sample;
  opt_n_iter := opt_n_iter one_sample;
  opt_H := opt_H one_sample;
  opt_W := opt_W one_sample;
  opt_C := opt_C one_sample;
  opt_f := opt_f one_sample;
  opt_n_samples := opt_n_samples one_sample;
  opt_n_rows := opt_n_rows one_sample;
  opt_scale := opt_scale one_sample;
  opt_from_file := opt_from_file one_sample;
  opt_config := opt_config one_sample;
  opt_ckpt := opt_ckpt one_sample;
  opt_seed := opt_seed one_sample;
  opt_precision := opt_precision one_sample
|}.

(** [one_sample] with [--laion400m], and the same with other paths. *)
Definition laion_run : options := {|
  opt_prompt := opt_prompt one_sample;
  opt_outdir := opt_outdir one_sample;
  opt_skip_grid := opt_skip_grid one_sample;
  opt_skip_save := opt_skip_save one_sample;
  opt_ddim_steps := opt_ddim_steps one_sample;
  opt_plms := opt_plms one_sample;
  opt_dpm_solver := opt_dpm_solver one_sample;
  opt_laion400m := true;
  opt_fixed_code := opt_fixed_code one_sample;
  opt_ddim_eta := opt_ddim_eta one_sample;
  opt_n_iter := opt_n_iter one_sample;
  opt_H := opt_H one_sample;
  opt_W := opt_W one_sample;
  opt_C := opt_C one_sample;
  opt_f := opt_f one_sample;
  opt_n_samples := opt_n_samples one_sample;
  opt_n_rows := opt_n_rows one_sample;
  opt_scale := opt_scale one_sample;
  opt_from_file := opt_from_file one_sample;
  opt_config := opt_config one_sample;
  opt_ckpt := opt_ckpt one_sample;
  opt_seed := opt_seed one_sample;
  opt_precision := opt_precision one_sample
|}.

Definition laion_run_other_paths : options := {|
  opt_prompt := opt_prompt one_sample;
  opt_outdir := "elsewhere";
  opt_skip_grid := opt_skip_grid one_sample;
  opt_skip_save := opt_skip_save one_sample;
  opt_ddim_steps := opt_ddim_steps one_sample;
  opt_plms := opt_plms one_sample;
  opt_dpm_solver := opt_dpm_solver one_sample;
  opt_laion400m := true;
  opt_fixed_code := opt_fixed_code one_sample;
  opt_ddim_eta := opt_ddim_eta one_sample;
  opt_n_iter := opt_n_iter one_sample;
  opt_H := opt_H one_sample;
  opt_W := opt_W one_sample;
  opt_C := opt_C one_sample;
  opt_f := opt_f one_sample;
  opt_n_samples := opt_n_samples one_sample;
  opt_n_rows := opt_n_rows one_sample;
  opt_scale := opt_scale one_sample;
  opt_from_file := opt_from_file one_sample;
  opt_config := "other.yaml";
  opt_ckpt := "other.ckpt";
  opt_seed := opt_seed one_sample;
  opt_precision := opt_precision one_sample
|}.

End Toy.

(** ** Statements of the specification, for comparison *)

(** [--from-file] is absent or empty: the prompt is the literal one. *)
Definition literal_prompt (opt : options) : Prop :=
  opt_from_file opt = None \/ opt_from_file opt = Some EmptyString.


(** Names given by a counter that starts again at 0 for each of [k]
    batches. *)
Definition restarts (k : nat) (names : list string) : Prop :=
  exists ks : list nat,
    length ks = k /\
    names = concat ((fun n => sample_name <$> seqZ 0 (Z.of_nat n)) <$> ks).

(** What a stretch of the sampling loop that ran the batches of sizes
    [ns] did to the state: the counters, the directories and the events it
    added to the trace. *)
Record batches_ran `{Backend} (opt : options) (ctx : context)
    (ns : list nat) (st st' : state) : Prop := {
  ran_sizes : Forall (batch_size_of opt ctx) ns;
  ran_base :
    base_count st' =
    if opt_skip_save opt then base_count st
    else base_count st + Z.of_nat (sum_list ns);
  ran_grid : grid_count st' = grid_count st;
  ran_root : root_rest (fs st') = root_rest (fs st);
  ran_all_samples :
    length (all_samples st') =
    (length (all_samples st) +
     (if opt_skip_grid opt then 0 else length ns))%nat;
  ran_trace :
    exists delta,
      trace st' = trace st ++ delta /\
      randn_calls delta = [] /\
      saves_in OutRoot delta = [] /\
      sampler_noise delta = replicate (length ns) (ctx_start_code ctx) /\
      saves_in (OutSub Samples) delta =
        (if opt_skip_save opt then []
         else sample_name <$> seqZ (base_count st) (Z.of_nat (sum_list ns))) /\
      samples_dir (fs st') =
        list_to_set (saves_in (OutSub Samples) delta) ∪ samples_dir (fs st) /\
      restarts (length ns) (saves_in (OutSub Process) delta) /\
      restarts (length ns) (saves_in (OutSub Process2) delta)
}.




(** "Every PromptBatch has length = batch size". *)
Definition every_batch_full `{Backend} (opt : options) : Prop :=
  forall data b,
    prompt_data opt = Ok data -> b ∈ data ->
    Z.of_nat (length b) = opt_n_samples opt.

(** The name of a subdirectory inside the output directory. *)
Definition subdir_name (d : subdir) : string :=
  match d with
  | Samples => "samples"
  | Process => "process"
  | Process2 => "process2"
  end.

(** Two option records that differ at most in [--config], [--ckpt] and
    [--outdir]. *)
Definition same_except_paths (opt opt' : options) : Prop :=
  opt_prompt opt = opt_prompt opt' /\
  opt_skip_grid opt = opt_skip_grid opt' /\
  opt_skip_save opt = opt_skip_save opt' /\
  opt_ddim_steps opt = opt_ddim_steps opt' /\
  opt_plms opt = opt_plms opt' /\
  opt_dpm_solver opt = opt_dpm_solver opt' /\
  opt_laion400m opt = opt_laion400m opt' /\
  opt_fixed_code opt = opt_fixed_code opt' /\
  opt_ddim_eta opt = opt_ddim_eta opt' /\
  opt_n_iter opt = opt_n_iter opt' /\
  opt_H opt = opt_H opt' /\
  opt_W opt = opt_W opt' /\
  opt_C opt = opt_C opt' /\
  opt_f opt = opt_f opt' /\
  opt_n_samples opt = opt_n_samples opt' /\
  opt_n_rows opt = opt_n_rows opt' /\
  opt_scale opt = opt_scale opt' /\
  opt_from_file opt = opt_from_file opt' /\
  opt_seed opt = opt_seed opt' /\
  opt_precision opt = opt_precision opt'.

(** ** Proof steps used more than once *)

(** Reads the fields of a state built by the functions of the loop without
    unfolding what they write into the directories. *)
Ltac project_state :=
  cbn [fs base_count grid_count processList process2List all_samples gen
       trace save_names clear_lists append_samples].

(** * Part II: lemmas and theorems *)

(** ** The error monad *)

Lemma bind_Ok {A B} (m : result A) (k : A -> result B) (b : B) :
  m ≫= k = Ok b -> exists a, m = Ok a /\ k a = Ok b.
Proof. destruct m as [a|e]; [by exists a|discriminate]. Qed.

Lemma of_option_Ok {A} (e : exn) (o : option A) (a : A) :
  of_option e o = Ok a <-> o = Some a.
Proof. destruct o; simpl; split; congruence. Qed.

Lemma assert_Ok (b : bool) : assert b = Ok tt <-> b = true.
Proof. destruct b; simpl; split; congruence. Qed.

(** ** The prompt batcher *)

Section ChunkFacts.
Context {A : Type}.
Implicit Types (it b : list A) (size : nat).

Lemma chunks_eq size it :
  chunks size it =
  match take size it with
  | [] => []
  | b => b :: chunks size (drop size it)
  end.
Proof.
  rewrite chunks_equation_1.
  destruct (inspect (take size it)) as [[|x b] Hb]; simpl;
    rewrite Hb; reflexivity.
Qed.

Lemma chunks_nil size : chunks size (@nil A) = [].
Proof. rewrite chunks_eq. by rewrite take_nil. Qed.

Lemma chunks_zero it : chunks 0 it = [].
Proof. by rewrite chunks_eq. Qed.

Lemma chunks_step size it :
  (0 < size)%nat -> it <> [] ->
  chunks size it = take size it :: chunks size (drop size it).
Proof.
  intros Hs Hit. rewrite chunks_eq.
  destruct size as [|k]; [lia|]. destruct it as [|y ys]; [done|]. reflexivity.
Qed.

(** Induction that follows the iterator: from the rest [drop size it] to
    [it]. *)
Lemma chunks_ind size (Hs : (0 < size)%nat) (P : list A -> Prop) :
  P [] ->
  (forall it, it <> [] -> P (drop size it) -> P it) ->
  forall it, P it.
Proof.
  intros Hnil Hstep.
  assert (forall n it, (length it <= n)%nat -> P it) as Hall;
    [|intros it; by apply (Hall (length it))].
  induction n as [|n IHn]; intros it Hlen.
  - destruct it; [exact Hnil|simpl in Hlen; lia].
  - destruct it as [|y ys]; [exact Hnil|].
    apply Hstep; [done|]. apply IHn.
    rewrite length_drop. simpl in *. lia.
Qed.

Lemma concat_chunks size it :
  (0 < size)%nat -> concat (chunks size it) = it.
Proof.
  intros Hs. induction it as [|it Hne IH] using (chunks_ind size Hs).
  - by rewrite chunks_nil.
  - rewrite chunks_step by done. simpl. rewrite IH. apply take_drop.
Qed.

Lemma chunks_nonempty size it b :
  b ∈ chunks size it -> b <> [].
Proof.
  destruct size as [|k]; [rewrite chunks_zero; by intros ?%elem_of_nil|].
  induction it as [|it Hne IH] using (chunks_ind (S k) ltac:(lia)).
  - rewrite chunks_nil. by intros ?%elem_of_nil.
  - rewrite chunks_step by (done || lia).
    intros [->|Hin]%elem_of_cons; [|by apply IH].
    destruct it; [done|]. discriminate.
Qed.

Lemma chunks_length_le size it b :
  b ∈ chunks size it -> (length b <= size)%nat.
Proof.
  destruct size as [|k]; [rewrite chunks_zero; by intros ?%elem_of_nil|].
  induction it as [|it Hne IH] using (chunks_ind (S k) ltac:(lia)).
  - rewrite chunks_nil. by intros ?%elem_of_nil.
  - rewrite chunks_step by (done || lia).
    intros [->|Hin]%elem_of_cons; [|by apply IH].
    rewrite length_take. lia.
Qed.

(** A batch that is followed by another one is full. *)
Lemma chunks_full_before_last size it i b :
  (0 < size)%nat ->
  chunks size it !! i = Some b ->
  (S i < length (chunks size it))%nat ->
  length b = size.
Proof.
  intros Hs. revert i.
  induction it as [|it Hne IH] using (chunks_ind size Hs).
  - intros i. by rewrite chunks_nil.
  - intros i. rewrite chunks_step by done. destruct i as [|i]; simpl.
    + intros [= <-] Hlen. rewrite length_take.
      destruct (decide (size <= length it)%nat) as [|Hlt]; [lia|].
      rewrite drop_ge in Hlen by lia. rewrite chunks_nil in Hlen.
      simpl in Hlen. lia.
    + intros Hb Hlen. apply (IH i); [done|lia].
Qed.

(** With a positive size [chunk] returns, and what it returns is what the
    iterator yields. *)
Lemma chunk_positive (xs : list A) (k : Z) :
  0 < k -> chunk xs k = Ok (chunks (Z.to_nat k) xs).
Proof. intros Hk. unfold chunk. by destruct (Z.ltb_spec k 0) as [|_]; [lia|]. Qed.


End ChunkFacts.


(** ** The prompt batches of [main] *)

Section PromptFacts.
Context `{Backend}.

Lemma prompt_data_literal opt :
  literal_prompt opt ->
  prompt_data opt =
  (prompt ← of_option AssertionError (opt_prompt opt);
   Ok [replicate (Z.to_nat (opt_n_samples opt)) prompt]).
Proof. unfold prompt_data. by intros [-> | ->]. Qed.

Lemma prompt_data_file opt path :
  opt_from_file opt = Some path -> path <> EmptyString ->
  prompt_data opt =
  (data ← read_lines path; chunk data (opt_n_samples opt)).
Proof. unfold prompt_data. intros -> Hp. by destruct path. Qed.

Lemma literal_or_file opt :
  literal_prompt opt \/
  exists path, opt_from_file opt = Some path /\ path <> EmptyString.
Proof.
  unfold literal_prompt. destruct (opt_from_file opt) as [[|c s]|]; eauto.
Qed.

(** C3, amended: with a positive batch size, every batch handed to the
    generation loop holds at least one and at most batch-size prompts, and
    every batch except possibly the last holds exactly batch-size prompts.
    The single batch of a literal prompt holds exactly batch-size copies of
    it; the batches of a file are its lines in order, so the last batch
    holds the remaining lines when their number is not a multiple of the
    batch size. *)
Theorem prompt_data_batches opt data :
  0 < opt_n_samples opt ->
  prompt_data opt = Ok data ->
  (forall i b, data !! i = Some b ->
     0 < Z.of_nat (length b) <= opt_n_samples opt /\
     ((S i < length data)%nat -> Z.of_nat (length b) = opt_n_samples opt)) /\
  (literal_prompt opt ->
     exists prompt, opt_prompt opt = Some prompt /\
       data = [replicate (Z.to_nat (opt_n_samples opt)) prompt]) /\
  (forall path lines,
     opt_from_file opt = Some path -> path <> EmptyString ->
     read_lines path = Ok lines -> concat data = lines).
Proof.
  intros Hn Hdata.
  destruct (literal_or_file opt) as [Hlit|(path & Hpath & Hne)].
  - rewrite prompt_data_literal in Hdata by done.
    apply bind_Ok in Hdata as (prompt & Hp%of_option_Ok & [= <-]).
    split; [|split].
    + intros [|i] b; [|done]. simpl. intros [= <-].
      rewrite length_replicate. split; lia.
    + intros _. by exists prompt.
    + intros path lines Hpath Hne. destruct Hlit as [Hl|Hl]; congruence.
  - rewrite (prompt_data_file opt path) in Hdata by done.
    apply bind_Ok in Hdata as (lines & Hlines & Hchunk).
    rewrite chunk_positive in Hchunk by done. injection Hchunk as <-.
    set (size := Z.to_nat (opt_n_samples opt)).
    split; [|split].
    + intros i b Hi. split.
      * assert (b ∈ chunks size lines) as Hin
          by (apply list_elem_of_lookup; eauto).
        pose proof (chunks_nonempty size lines b Hin) as Hnonempty.
        apply chunks_length_le in Hin. destruct b; [done|].
        simpl in *. lia.
      * intros Hlast.
        rewrite (chunks_full_before_last size lines i b); [lia|lia|done|done].
    + intros [Hl|Hl]; congruence.
    + intros path' lines' Hpath' _ Hlines'.
      assert (lines' = lines) as -> by congruence.
      apply concat_chunks. lia.
Qed.

End PromptFacts.

Lemma prompt_data_batches_witness :
  (forall i b, [["a"; "b"]; ["c"]]%string !! i = Some b ->
     0 < Z.of_nat (length b) <= 2 /\
     ((S i < 2)%nat -> Z.of_nat (length b) = 2)) /\
  (literal_prompt (Toy.with_batches 1 2 (Some "prompts.txt"%string)) ->
     exists prompt,
       Some "x"%string = Some prompt /\
       [["a"; "b"]; ["c"]]%string = [replicate 2 prompt]) /\
  (forall path lines,
     Some "prompts.txt"%string = Some path -> path <> EmptyString ->
     @read_lines _ (Toy.backend true true ["a"; "b"; "c"]%string) path
       = Ok lines ->
     concat [["a"; "b"]; ["c"]]%string = lines).
Proof.
  apply (@prompt_data_batches _
           (Toy.backend true true ["a"; "b"; "c"]%string)
           (Toy.with_batches 1 2 (Some "prompts.txt"%string))
           [["a"; "b"]; ["c"]]%string); reflexivity.
Defined.

Lemma prompt_data_short_last_batch :
  ~ @every_batch_full _ (Toy.backend true true ["a"; "b"; "c"]%string)
      (Toy.with_batches 1 2 (Some "prompts.txt"%string)).
Proof.
  intros Hfull.
  specialize (Hfull [["a"; "b"]; ["c"]]%string ["c"]%string eq_refl).
  assert (Z.of_nat 1 = 2) as Habs; [|discriminate Habs].
  apply Hfull. apply elem_of_cons. right. apply list_elem_of_here.
Qed.

(** ** File names *)

Section FormatFacts.
Implicit Types (s t : string) (n : Z).

Lemma length_append s t :
  String.length (s +:+ t) = (String.length s + String.length t)%nat.
Proof. induction s as [|c s IH]; simpl; [done|by rewrite IH]. Qed.

Lemma append_inj_r s1 s2 t : s1 +:+ t = s2 +:+ t -> s1 = s2.
Proof.
  intros Heq.
  assert (String.length s1 = String.length s2) as Hlen.
  { apply (f_equal String.length) in Heq. rewrite !length_append in Heq. lia. }
  revert s2 Heq Hlen. induction s1 as [|c s1 IH]; intros [|c' s2]; simpl;
    try done.
  intros [= -> Heq] [= Hlen]. f_equal. by apply IH.
Qed.

Lemma length_zeros k : String.length (zeros k) = k.
Proof. induction k; simpl; congruence. Qed.

(** The result of [zfill] is at least [width] characters long. *)
Lemma length_zfill width s :
  String.length (zfill width s) = (width `max` String.length s)%nat.
Proof. unfold zfill. rewrite length_append, length_zeros. lia. Qed.

Lemma parse_nat_zeros k s : parse_nat (zeros k +:+ s) = parse_nat s.
Proof.
  induction k as [|k IH]; [done|]. rewrite <-IH. unfold parse_nat. simpl.
  by destruct (NilEmpty.uint_of_string (zeros k +:+ s)).
Qed.

Lemma parse_nat_digits (m : N) : parse_nat (digits m) = Some m.
Proof.
  unfold parse_nat, digits. rewrite NilEmpty.usu. simpl.
  by rewrite DecimalN.Unsigned.of_to.
Qed.

Lemma parse_format_int width n :
  0 <= n -> parse_nat (format_int width n) = Some (Z.to_N n).
Proof.
  intros Hn. unfold format_int. destruct (Z.ltb_spec n 0) as [|_]; [lia|].
  unfold zfill. by rewrite parse_nat_zeros, parse_nat_digits.
Qed.

Lemma format_int_inj width a b :
  0 <= a -> 0 <= b -> format_int width a = format_int width b -> a = b.
Proof.
  intros Ha Hb Heq. apply (f_equal parse_nat) in Heq.
  rewrite !parse_format_int in Heq by done. injection Heq. lia.
Qed.

Lemma sample_name_inj a b :
  0 <= a -> 0 <= b -> sample_name a = sample_name b -> a = b.
Proof.
  intros Ha Hb Heq. apply append_inj_r in Heq. by apply format_int_inj in Heq.
Qed.

Lemma grid_name_inj a b :
  0 <= a -> 0 <= b -> grid_name a = grid_name b -> a = b.
Proof.
  unfold grid_name. intros Ha Hb Heq. apply (inj (String.app _)) in Heq.
  apply append_inj_r in Heq. by apply format_int_inj in Heq.
Qed.


End FormatFacts.

(** ** The safety filter *)

Section SafetyFacts.
Context `{Backend}.
Implicit Types (x : ndarray) (xs : list ndarray) (flags : list bool).

Lemma resize_Ok im w h y :
  resize im w h = Ok y ->
  pil_width y = w /\ pil_height y = h /\ pil_bands y = pil_bands im.
Proof.
  unfold resize. intros (px & _ & [= <-])%bind_Ok. by simpl.
Qed.

(** What [load_replacement] returns: the argument itself, or the resized
    placeholder, which then has the shape of the argument. *)
Lemma load_replacement_cases x :
  load_replacement x = x \/
  exists im h w y,
    Image_open "assets/rick.jpeg" = Ok im /\
    shape x !! 0%nat = Some h /\ shape x !! 1%nat = Some w /\
    resize (convert_RGB im) w h = Ok y /\
    shape (np_array y) = shape x /\
    load_replacement x = astype (dtype_of x) (div255 (np_array y)).
Proof.
  unfold load_replacement.
  destruct (Image_open "assets/rick.jpeg") as [im|e]; simpl; [|by left].
  destruct (shape x !! 1%nat) as [w|] eqn:Hw; simpl; [|by left].
  destruct (shape x !! 0%nat) as [h|] eqn:Hh; simpl; [|by left].
  destruct (resize (convert_RGB im) w h) as [y|e] eqn:Hy; simpl; [|by left].
  case_bool_decide as Hshape; simpl; [|by left].
  right. exists im, h, w, y. by rewrite Hy.
Qed.

Lemma load_replacement_shape x : shape (load_replacement x) = shape x.
Proof.
  destruct (load_replacement_cases x)
    as [->|(im & h & w & y & _ & _ & _ & _ & Hs & ->)]; done.
Qed.

Lemma load_replacement_dtype x : dtype_of (load_replacement x) = dtype_of x.
Proof.
  destruct (load_replacement_cases x)
    as [->|(im & h & w & y & _ & _ & _ & _ & Hs & ->)]; done.
Qed.

(** The asset cannot be opened: the exception is swallowed. *)
Lemma load_replacement_no_asset x e :
  Image_open "assets/rick.jpeg" = Raise e -> load_replacement x = x.
Proof. unfold load_replacement. by intros ->. Qed.

(** The resize fails: the exception is swallowed. *)
Lemma load_replacement_no_resize x im h w rest e :
  Image_open "assets/rick.jpeg" = Ok im ->
  shape x = h :: w :: rest ->
  resize (convert_RGB im) w h = Raise e ->
  load_replacement x = x.
Proof.
  unfold load_replacement. intros -> -> Hr. unfold resize in *. simpl.
  by destruct (resample (convert_RGB im) w h).
Qed.

(** The asset loads and the image has three channels: the placeholder
    resized to the height and the width of the image. *)
Lemma load_replacement_placeholder x im h w y :
  Image_open "assets/rick.jpeg" = Ok im ->
  shape x = [h; w; 3%nat] ->
  resize (convert_RGB im) w h = Ok y ->
  load_replacement x = astype (dtype_of x) (div255 (np_array y)).
Proof.
  unfold load_replacement. intros -> Hs Hy. rewrite Hs.
  unfold resize in *. simpl.
  destruct (resample (convert_RGB im) w h) as [px|e]; [|done].
  injection Hy as <-. simpl. by rewrite bool_decide_eq_true_2.
Qed.

(** The loop over the indices [a], ..., [a + n - 1]. *)
Lemma replace_flagged_seq flags a n xs :
  (a + n <= length flags)%nat -> length xs = length flags ->
  exists xs',
    replace_flagged flags (seq a n) xs = Ok xs' /\
    length xs' = length xs /\
    forall i x, xs !! i = Some x ->
      xs' !! i =
      Some (if bool_decide (a <= i < a + n)%nat && default false (flags !! i)
            then load_replacement x else x).
Proof.
  revert a xs. induction n as [|n IH]; intros a xs Ha Hlen.
  - exists xs. split; [done|]. split; [done|]. intros i x Hi.
    rewrite bool_decide_eq_false_2 by lia. done.
  - simpl.
    destruct (lookup_lt_is_Some_2 flags a) as [flag Hflag]; [lia|].
    rewrite Hflag. simpl.
    destruct (lookup_lt_is_Some_2 xs a) as [xa Hxa]; [lia|].
    destruct flag; simpl.
    + rewrite Hxa. simpl.
      destruct (IH (S a) (<[a := load_replacement xa]> xs))
        as (xs' & Hrun & Hlen' & Hxs'); [lia|by rewrite length_insert|].
      exists xs'. split; [done|]. rewrite Hlen', length_insert.
      split; [done|]. intros i x Hi.
      destruct (decide (i = a)) as [->|Hne].
      * rewrite (Hxs' a (load_replacement xa)).
        2:{ apply list_lookup_insert_eq. by eapply lookup_lt_Some. }
        rewrite bool_decide_eq_false_2 by lia.
        rewrite bool_decide_eq_true_2 by lia.
        rewrite Hflag. simpl. congruence.
      * rewrite (Hxs' i x) by (by rewrite list_lookup_insert_ne).
        by rewrite (bool_decide_ext (S a <= i < S a + n)%nat
                     (a <= i < a + S n)%nat) by lia.
    + destruct (IH (S a) xs) as (xs' & Hrun & Hlen' & Hxs'); [lia|done|].
      exists xs'. split; [done|]. split; [done|]. intros i x Hi.
      rewrite (Hxs' i x Hi).
      destruct (decide (i = a)) as [->|Hne].
      * rewrite bool_decide_eq_false_2 by lia. rewrite Hflag. simpl.
        by rewrite andb_false_r.
      * by rewrite (bool_decide_ext (S a <= i < S a + n)%nat
                     (a <= i < a + S n)%nat) by lia.
Qed.

(** Whatever the indices, the loop keeps the shape and the dtype of every
    image. *)
Lemma replace_flagged_shapes flags indices xs xs' :
  replace_flagged flags indices xs = Ok xs' ->
  shape <$> xs' = shape <$> xs /\ dtype_of <$> xs' = dtype_of <$> xs.
Proof.
  revert xs. induction indices as [|i indices IH]; intros xs; simpl.
  - by intros [= ->].
  - intros (flag & _ & (xs1 & Hxs1 & Hrest)%bind_Ok)%bind_Ok.
    apply IH in Hrest as [-> ->]. destruct flag; [|by injection Hxs1 as ->].
    apply bind_Ok in Hxs1 as (x & Hx%of_option_Ok & [= <-]).
    rewrite !list_fmap_insert, load_replacement_shape, load_replacement_dtype.
    split; apply list_insert_id; by rewrite list_lookup_fmap, Hx.
Qed.

(** [check_safety] succeeds when the classifier returns one verdict per
    image, and its result is the classifier's batch with the flagged images
    passed through [load_replacement]. *)
Lemma check_safety_Ok x_image xc flags :
  safety_checker x_image = (xc, flags) ->
  length xc = length flags ->
  exists xs',
    check_safety x_image = Ok (xs', flags) /\
    length xs' = length xc /\
    forall i x, xc !! i = Some x ->
      xs' !! i =
      Some (if default false (flags !! i) then load_replacement x else x).
Proof.
  intros Hchk Hlen. unfold check_safety. rewrite Hchk.
  rewrite bool_decide_eq_true_2 by done. simpl.
  destruct (replace_flagged_seq flags 0 (length flags) xc)
    as (xs' & -> & Hlen' & Hxs'); [lia|done|].
  exists xs'. split; [done|]. split; [done|]. intros i x Hi.
  rewrite (Hxs' i x Hi). apply lookup_lt_Some in Hi.
  rewrite bool_decide_eq_true_2 by lia. done.
Qed.

Lemma check_safety_inv x_image xs' flags :
  check_safety x_image = Ok (xs', flags) ->
  flags = (safety_checker x_image).2 /\
  length (safety_checker x_image).1 = length flags /\
  shape <$> xs' = shape <$> (safety_checker x_image).1 /\
  dtype_of <$> xs' = dtype_of <$> (safety_checker x_image).1.
Proof.
  unfold check_safety. destruct (safety_checker x_image) as [xc flags'].
  intros ([] & Hassert & (xs1 & Hloop & [= <- <-])%bind_Ok)%bind_Ok.
  apply assert_Ok, bool_decide_eq_true in Hassert.
  apply replace_flagged_shapes in Hloop as [? ?]. done.
Qed.

(** C10: [load_replacement] is a total function (the [try] catches every
    exception) and always returns an array of the shape and the dtype of
    its argument: the argument itself, or the placeholder resized to the
    height and the width of the argument.  Consequently the replacement
    loop of [check_safety] keeps the number of images and the shape of
    every image of the checked batch. *)
Theorem load_replacement_same_shape_dtype x :
  shape (load_replacement x) = shape x /\
  dtype_of (load_replacement x) = dtype_of x /\
  (load_replacement x = x \/
   exists im h w r,
     Image_open "assets/rick.jpeg" = Ok im /\
     shape x !! 0%nat = Some h /\ shape x !! 1%nat = Some w /\
     resize (convert_RGB im) w h = Ok r /\
     load_replacement x = astype (dtype_of x) (div255 (np_array r))) /\
  (forall flags indices xs xs',
     replace_flagged flags indices xs = Ok xs' ->
     shape <$> xs' = shape <$> xs) /\
  (forall x_image xs' flags,
     check_safety x_image = Ok (xs', flags) ->
     shape <$> xs' = shape <$> (safety_checker x_image).1).
Proof.
  split; [apply load_replacement_shape|].
  split; [apply load_replacement_dtype|].
  split.
  - destruct (load_replacement_cases x)
      as [?|(im & h & w & r & ? & ? & ? & ? & _ & ?)]; [by left|].
    right. by exists im, h, w, r.
  - split.
    + intros flags indices xs xs' Hloop.
      by apply replace_flagged_shapes in Hloop as [? _].
    + intros x_image xs' flags Hchk.
      by apply check_safety_inv in Hchk as (_ & _ & ? & _).
Qed.

(** C2: for every decoded batch on which the classifier returns one
    verdict per image, [check_safety] returns; an image that is not flagged
    is left as it is; a flagged image of shape (h, w, 3) is replaced by the
    placeholder resized to width w and height h when the asset loads and
    resizes; when opening or resizing the asset raises, the exception is
    swallowed and the image at that index is left exactly as it was. *)
Theorem check_safety_replaces_flagged x_image xc flags :
  safety_checker x_image = (xc, flags) ->
  length xc = length flags ->
  exists xs',
    check_safety x_image = Ok (xs', flags) /\
    length xs' = length xc /\
    forall i x, xc !! i = Some x ->
      match flags !! i with
      | Some true =>
          match Image_open "assets/rick.jpeg" with
          | Ok im =>
              forall h w, shape x = [h; w; 3%nat] ->
                match resize (convert_RGB im) w h with
                | Ok r =>
                    pil_width r = w /\ pil_height r = h /\
                    xs' !! i =
                    Some (astype (dtype_of x) (div255 (np_array r)))
                | Raise _ => xs' !! i = Some x
                end
          | Raise _ => xs' !! i = Some x
          end
      | _ => xs' !! i = Some x
      end.
Proof.
  intros Hchk Hlen.
  destruct (check_safety_Ok x_image xc flags Hchk Hlen)
    as (xs' & Hrun & Hlen' & Hxs').
  exists xs'. split; [done|]. split; [done|]. intros i x Hi.
  rewrite (Hxs' i x Hi).
  destruct (flags !! i) as [[|]|]; simpl; try done.
  destruct (Image_open "assets/rick.jpeg") as [im|e] eqn:Him.
  - intros h w Hshape.
    destruct (resize (convert_RGB im) w h) as [r|e] eqn:Hr.
    + destruct (resize_Ok _ _ _ _ Hr) as (? & ? & _).
      by rewrite (load_replacement_placeholder x im h w r).
    + by rewrite (load_replacement_no_resize x im h w [3%nat] e).
  - by rewrite (load_replacement_no_asset x e).
Qed.

End SafetyFacts.

Lemma check_safety_replaces_flagged_witness :
  exists xs',
    @check_safety _ (Toy.backend true true []) [Toy.blank; Toy.flagged_image]
      = Ok (xs', [false; true]) /\
    length xs' = 2%nat /\
    forall i x, [Toy.blank; Toy.flagged_image] !! i = Some x ->
      match [false; true] !! i with
      | Some true =>
          match @Image_open _ (Toy.backend true true []) "assets/rick.jpeg" with
          | Ok im =>
              forall h w, shape x = [h; w; 3%nat] ->
                match @resize _ (Toy.backend true true [])
                        (@convert_RGB _ (Toy.backend true true []) im) w h with
                | Ok r =>
                    pil_width r = w /\ pil_height r = h /\
                    xs' !! i =
                    Some (@astype _ (Toy.backend true true []) (dtype_of x)
                            (@div255 _ (Toy.backend true true [])
                               (np_array r)))
                | Raise _ => xs' !! i = Some x
                end
          | Raise _ => xs' !! i = Some x
          end
      | _ => xs' !! i = Some x
      end.
Proof.
  apply (@check_safety_replaces_flagged _ (Toy.backend true true [])
           [Toy.blank; Toy.flagged_image]
           [Toy.blank; Toy.flagged_image] [false; true]); reflexivity.
Defined.

(** With the asset in place the flagged image of the small backend is
    replaced; without it the batch comes back as the classifier left it. *)
Example check_safety_with_asset :
  @check_safety _ (Toy.backend true true []) [Toy.blank; Toy.flagged_image]
  = Ok ([Toy.blank; Toy.placeholder_1x2], [false; true]).
Proof. reflexivity. Qed.

Example check_safety_without_asset :
  @check_safety _ (Toy.backend true false []) [Toy.blank; Toy.flagged_image]
  = Ok ([Toy.blank; Toy.flagged_image], [false; true]).
Proof. reflexivity. Qed.

(** ** The model loader and the sampler selector *)

Section LoaderFacts.
Context `{Backend}.

Lemma cuda_Ok m m' : cuda m = Ok m' -> cuda_is_available = true.
Proof. unfold cuda. by destruct cuda_is_available. Qed.

(** A model that [load_model_from_config] returns went through
    [model.cuda()]: there is a CUDA device and the model is on it. *)
Lemma load_model_from_config_Ok config ckpt verbose g m g' :
  load_model_from_config config ckpt verbose g = Ok (m, g') ->
  cuda_is_available = true /\ model_device m = Cuda /\ training m = false.
Proof.
  unfold load_model_from_config.
  intros (pl_sd & _ & (entry & _ & (sd & _ & Hrest)%bind_Ok)%bind_Ok)%bind_Ok.
  apply bind_Ok in Hrest as ([n g1] & _ & Hrest).
  destruct (load_state_dict n sd) as [n' [mk uk]].
  apply bind_Ok in Hrest as (m1 & Hcuda & [= <- <-]).
  split; [by apply cuda_Ok in Hcuda|].
  unfold cuda in Hcuda. destruct cuda_is_available; [|done].
  by injection Hcuda as <-.
Qed.

(** C4 (the code at the failing input): on a machine without a CUDA
    device, with a readable checkpoint that holds a state dictionary and a
    configuration that instantiates, [load_model_from_config] raises at
    [model.cuda()]; the fallback to the CPU in [main] is never reached. *)
Theorem load_model_raises_without_cuda config ckpt verbose g pl_sd sd n g' :
  cuda_is_available = false ->
  torch_load ckpt = Ok pl_sd ->
  pl_sd !! "state_dict"%string = Some (VStateDict sd) ->
  instantiate_from_config config g = Ok (n, g') ->
  load_model_from_config config ckpt verbose g = Raise RuntimeError /\
  load_and_place config ckpt g = Raise RuntimeError.
Proof.
  intros Hcuda Hload Hsd Hinst.
  assert (load_model_from_config config ckpt verbose g = Raise RuntimeError)
    as Hraise.
  { unfold load_model_from_config. rewrite Hload. simpl. rewrite Hsd. simpl.
    rewrite Hinst. simpl. destruct (load_state_dict n sd) as [n' [mk uk]].
    unfold cuda. by rewrite Hcuda. }
  split; [done|]. unfold load_and_place.
  unfold load_model_from_config in *. by rewrite Hraise.
Qed.

(** Without a CUDA device no run of [main] completes. *)
Lemma main_needs_cuda opt root0 st :
  main opt root0 = Ok st -> cuda_is_available = true.
Proof.
  unfold main, setup.
  intros ([ctx st0] & Hsetup & _)%bind_Ok.
  apply bind_Ok in Hsetup as (config & _ & Hrest).
  apply bind_Ok in Hrest as ([[m dev] g] & Hplace & _).
  unfold load_and_place in Hplace.
  apply bind_Ok in Hplace as ([m1 g1] & Hmodel & _).
  by apply load_model_from_config_Ok in Hmodel as (? & _).
Qed.

(** C5: the sampler is chosen by the two flags alone, in a fixed order:
    the DPM-solver strategy whenever its flag is set, whatever the PLMS
    flag; otherwise PLMS when its flag is set; otherwise DDIM. *)
Theorem select_sampler_priority (opt : options) (m : model) :
  (opt_dpm_solver opt = true ->
     select_sampler opt m = DPMSolverSampler m) /\
  (opt_dpm_solver opt = false -> opt_plms opt = true ->
     select_sampler opt m = PLMSSampler m) /\
  (opt_dpm_solver opt = false -> opt_plms opt = false ->
     select_sampler opt m = DDIMSampler m) /\
  (forall opt',
     opt_dpm_solver opt' = opt_dpm_solver opt ->
     opt_plms opt' = opt_plms opt ->
     select_sampler opt' m = select_sampler opt m).
Proof.
  unfold select_sampler. repeat split.
  - by intros ->.
  - by intros -> ->.
  - by intros -> ->.
  - by intros opt' -> ->.
Qed.

End LoaderFacts.

Lemma load_model_raises_without_cuda_witness :
  @load_model_from_config _ (Toy.backend false true []) tt "model.ckpt" false 42
    = Raise RuntimeError /\
  @load_and_place _ (Toy.backend false true []) tt "model.ckpt" 42
    = Raise RuntimeError.
Proof.
  apply (@load_model_raises_without_cuda _ (Toy.backend false true [])
           tt "model.ckpt"%string false 42
           {[ "state_dict"%string := VStateDict (tt : @weights Toy.carriers) ]}
           tt tt 43); reflexivity.
Defined.

(** The whole driver on that machine. *)
Example main_without_cuda :
  @main _ (Toy.backend false true []) Toy.one_sample None = Raise RuntimeError.
Proof. reflexivity. Qed.

(** ** The video assembler *)

Section VideoFacts.
Import MakeVideo.
Implicit Types (image_folder : folder) (images : list string) (v : video).



End VideoFacts.


(** A folder without any [.png] entry. *)
Example write_video_no_frames :
  MakeVideo.write_video "video1.avi" [("notes.txt"%string, None)]
  = Raise IndexError.
Proof. reflexivity. Qed.

(** ** The generation loop *)

Section LoopFacts.
Context `{Backend}.
Implicit Types (st : state) (tr : list event) (names : list string).

(** *** Reading a trace *)

Lemma saves_in_app dir tr1 tr2 :
  saves_in dir (tr1 ++ tr2) = saves_in dir tr1 ++ saves_in dir tr2.
Proof. apply omap_app. Qed.

Lemma sampler_noise_app tr1 tr2 :
  sampler_noise (tr1 ++ tr2) = sampler_noise tr1 ++ sampler_noise tr2.
Proof. apply omap_app. Qed.

Lemma randn_calls_app tr1 tr2 :
  randn_calls (tr1 ++ tr2) = randn_calls tr1 ++ randn_calls tr2.
Proof. apply omap_app. Qed.

Lemma saves_in_saves dir d names :
  saves_in dir (EvSave (OutSub d) <$> names) =
  if decide (OutSub d = dir) then names else [].
Proof.
  induction names as [|name names IH]; [by case_decide|].
  rewrite fmap_cons.
  change (saves_in dir ([EvSave (OutSub d) name] ++ (EvSave (OutSub d) <$> names))
          = if decide (OutSub d = dir) then name :: names else []).
  rewrite saves_in_app, IH. unfold saves_in. simpl. by repeat case_decide.
Qed.

Lemma sampler_noise_saves d names :
  sampler_noise (EvSave (OutSub d) <$> names) = [].
Proof. by induction names. Qed.

Lemma randn_calls_saves d names :
  randn_calls (EvSave (OutSub d) <$> names) = [].
Proof. by induction names. Qed.

(** *** Writing names into a subdirectory *)

Lemma listing_write_names d' d names (w : workdir) :
  listing d' (foldl (fun w name => write_sub d name w) w names) =
  if decide (d' = d) then list_to_set names ∪ listing d' w else listing d' w.
Proof.
  revert w. induction names as [|name names IH]; intros w; simpl.
  - case_decide; [|done]. by rewrite (left_id_L ∅ (∪)).
  - rewrite IH. case_decide as Hd.
    + subst d'. rewrite (comm_L (∪) {[name]}), <-(assoc_L (∪)).
      by destruct d.
    + by destruct d, d'.
Qed.

Lemma root_rest_write_names d names (w : workdir) :
  root_rest (foldl (fun w name => write_sub d name w) w names) = root_rest w.
Proof.
  revert w. induction names as [|name names IH]; intros w; simpl; [done|].
  rewrite IH. by destruct d.
Qed.

Lemma save_names_nil d st : save_names d [] st = st.
Proof. destruct st. unfold save_names. simpl. by rewrite app_nil_r. Qed.

Lemma save_names_cons d name names st :
  save_names d (name :: names) st = save_names d names (img_save_sub d name st).
Proof. unfold save_names. simpl. by rewrite <-app_assoc. Qed.

Lemma save_names_app d names1 names2 st :
  save_names d (names1 ++ names2) st =
  save_names d names2 (save_names d names1 st).
Proof.
  unfold save_names. simpl. by rewrite foldl_app, fmap_app, app_assoc.
Qed.

(** *** The loops that save, in closed form *)

Lemma save_batch_eq d images counter st :
  save_batch d images counter st =
  (counter + Z.of_nat (length images),
   save_names d (sample_name <$> seqZ counter (Z.of_nat (length images))) st).
Proof.
  revert counter st. induction images as [|image images IH];
    intros counter st.
  - simpl. by rewrite save_names_nil, Z.add_0_r.
  - cbn [save_batch]. rewrite IH. f_equal; [simpl length; lia|].
    rewrite (seqZ_cons counter) by (simpl length; lia).
    rewrite fmap_cons, save_names_cons. do 3 f_equal; simpl length; lia.
Qed.

Lemma save_frames_eq m d frames counter st :
  save_frames m d frames counter st =
  let k := Z.of_nat (length (concat (decode_first_stage m <$> frames))) in
  (counter + k, save_names d (sample_name <$> seqZ counter k) st).
Proof.
  revert counter st. induction frames as [|imgstep frames IH];
    intros counter st.
  - simpl. by rewrite save_names_nil, Z.add_0_r.
  - cbn [save_frames]. rewrite save_batch_eq, IH. cbn zeta.
    rewrite fmap_cons. cbn [concat]. rewrite length_app, Nat2Z.inj_add.
    f_equal; [lia|]. rewrite seqZ_app, fmap_app by lia.
    by rewrite save_names_app.
Qed.

Lemma fold_save_step (steps : list (latent * latent)) st :
  fold_left (fun st step => save_step step.1 step.2 st) steps st = {|
    fs := fs st;
    base_count := base_count st;
    grid_count := grid_count st;
    processList := processList st ++ steps.*1;
    process2List := process2List st ++ steps.*2;
    all_samples := all_samples st;
    gen := gen st;
    trace := trace st
  |}.
Proof.
  revert st. induction steps as [|step steps IH]; intros st; simpl.
  - destruct st. simpl. by rewrite !app_nil_r.
  - rewrite IH. simpl. by rewrite <-!app_assoc.
Qed.

Lemma run_sampler_eq s args st :
  run_sampler s args st =
  let '(steps, samples_ddim, g) := sample s args (gen st) in
  (samples_ddim,
   {| fs := fs st;
      base_count := base_count st;
      grid_count := grid_count st;
      processList := processList st ++ steps.*1;
      process2List := process2List st ++ steps.*2;
      all_samples := all_samples st;
      gen := g;
      trace := trace st ++ [EvSample args] |}).
Proof.
  unfold run_sampler. destruct (sample s args (gen st)) as [[steps z] g].
  by rewrite fold_save_step.
Qed.

Lemma saveImages_eq m st :
  saveImages m st =
  clear_lists
    (save_names Process
       (sample_name <$>
          seqZ 0 (Z.of_nat (length (concat (decode_first_stage m <$>
                                              processList st)))))
       (save_names Process2
          (sample_name <$>
             seqZ 0 (Z.of_nat (length (concat (decode_first_stage m <$>
                                                 process2List st)))))
          st)).
Proof.
  unfold saveImages. rewrite save_frames_eq. cbv beta iota zeta.
  by rewrite save_frames_eq.
Qed.

Lemma save_samples_eq images st :
  save_samples images st =
  let st' :=
    save_names Samples
      (sample_name <$> seqZ (base_count st) (Z.of_nat (length images))) st in
  {| fs := fs st';
     base_count := base_count st + Z.of_nat (length images);
     grid_count := grid_count st';
     processList := processList st';
     process2List := process2List st';
     all_samples := all_samples st';
     gen := gen st';
     trace := trace st' |}.
Proof. unfold save_samples. by rewrite save_batch_eq. Qed.

(** *** Composing stretches of the loop *)

Lemma restarts_nil : restarts 0 [].
Proof. by exists []. Qed.

Lemma restarts_one n : restarts 1 (sample_name <$> seqZ 0 (Z.of_nat n)).
Proof. exists [n]. simpl. by rewrite app_nil_r. Qed.

Lemma restarts_app j k names1 names2 :
  restarts j names1 -> restarts k names2 -> restarts (j + k) (names1 ++ names2).
Proof.
  intros (ks1 & <- & ->) (ks2 & <- & ->). exists (ks1 ++ ks2).
  by rewrite length_app, fmap_app, concat_app.
Qed.

Lemma batches_ran_nil opt ctx st : batches_ran opt ctx [] st st.
Proof.
  split; simpl.
  - constructor.
  - destruct (opt_skip_save opt); [done|lia].
  - done.
  - done.
  - destruct (opt_skip_grid opt); lia.
  - exists []. rewrite app_nil_r. repeat split; try done.
    + by destruct (opt_skip_save opt).
    + simpl. by rewrite (left_id_L ∅ (∪)).
    + apply restarts_nil.
    + apply restarts_nil.
Qed.

Lemma batches_ran_app opt ctx ns ms st st' st'' :
  batches_ran opt ctx ns st st' -> batches_ran opt ctx ms st' st'' ->
  batches_ran opt ctx (ns ++ ms) st st''.
Proof.
  intros [Hs1 Hb1 Hg1 Hr1 Ha1 (d1 & Ht1 & Hn1 & Ho1 & Hx1 & Hv1 & Hd1 & Hp1 & Hq1)]
         [Hs2 Hb2 Hg2 Hr2 Ha2 (d2 & Ht2 & Hn2 & Ho2 & Hx2 & Hv2 & Hd2 & Hp2 & Hq2)].
  split.
  - by apply Forall_app.
  - rewrite Hb2, Hb1, sum_list_with_app. destruct (opt_skip_save opt); [done|lia].
  - congruence.
  - congruence.
  - rewrite Ha2, Ha1, length_app. destruct (opt_skip_grid opt); lia.
  - exists (d1 ++ d2). rewrite length_app, sum_list_with_app.
    split; [by rewrite Ht2, Ht1, app_assoc|].
    split; [by rewrite randn_calls_app, Hn1, Hn2|].
    split; [by rewrite saves_in_app, Ho1, Ho2|].
    split; [by rewrite sampler_noise_app, Hx1, Hx2, replicate_add|].
    split; [|split; [|split]].
    + rewrite saves_in_app, Hv1, Hv2, Hb1.
      destruct (opt_skip_save opt); [done|].
      rewrite Nat2Z.inj_add, seqZ_app, fmap_app by lia. done.
    + rewrite Hd2, Hd1, saves_in_app, list_to_set_app_L.
      rewrite (comm_L (∪) (list_to_set (saves_in (OutSub Samples) d1))
                 (list_to_set (saves_in (OutSub Samples) d2))).
      by rewrite <-(assoc_L (∪)).
    + rewrite saves_in_app. by apply restarts_app.
    + rewrite saves_in_app. by apply restarts_app.
Qed.

(** *** One batch *)



Lemma sample_prompts_ran opt ctx prompts st st' :
  sample_prompts opt ctx prompts st = Ok st' ->
  exists n, batches_ran opt ctx [n] st st'.
Proof.
  unfold sample_prompts.
  intros (h & Hh & (w & Hw & Hrest)%bind_Ok)%bind_Ok.
  rewrite run_sampler_eq in Hrest.
  match type of Hrest with
  | context [sample ?s ?a ?g] =>
      set (args := a) in *;
      destruct (sample s args g) as [[steps z] g'] eqn:Hsample
  end.
  cbv beta iota zeta in Hrest. rewrite saveImages_eq in Hrest.
  apply bind_Ok in Hrest as ([xc flags] & Hchk & Hst').
  apply check_safety_inv in Hchk as (_ & _ & Hshape & _).
  apply (f_equal length) in Hshape. rewrite !length_fmap in Hshape.
  exists (length xc).
  assert (batch_size_of opt ctx (length xc)) as Hsize.
  { exists args, (gen st). split; [done|]. by rewrite Hsample. }
  injection Hst' as <-.
  destruct (opt_skip_save opt) eqn:Hsave, (opt_skip_grid opt) eqn:Hgrid;
    rewrite ?save_samples_eq; cbv zeta.
  all: split; project_state; rewrite ?Hsave, ?Hgrid.
  all: try (by apply Forall_singleton).
  all: rewrite ?root_rest_write_names; try done.
  all: try (simpl; lia).
  all: try (rewrite ?length_app; simpl; lia).
  all: eexists; split; [rewrite <-!app_assoc; reflexivity|].
  all: rewrite ?randn_calls_app, ?saves_in_app, ?sampler_noise_app,
         ?randn_calls_saves, ?sampler_noise_saves, ?saves_in_saves.
  all: repeat match goal with
         | |- context [samples_dir (foldl ?f ?w ?l)] =>
             change (samples_dir (foldl f w l))
               with (listing Samples (foldl f w l));
             rewrite !listing_write_names
         end.
  all: simpl; rewrite ?app_nil_r, ?Nat.add_0_r;
         try rewrite (left_id_L ∅ (∪)).
  all: repeat split; try done; apply restarts_one.
Qed.


(** *** The loops *)

Lemma for_each_ran opt ctx data st st' :
  for_each (sample_prompts opt ctx) data st = Ok st' ->
  exists ns, length ns = length data /\ batches_ran opt ctx ns st st'.
Proof.
  revert st. induction data as [|prompts data IH]; intros st; simpl.
  - intros [= <-]. exists []. split; [done|apply batches_ran_nil].
  - intros (st1 & Hone & Hrest)%bind_Ok.
    apply sample_prompts_ran in Hone as [n Hn].
    apply IH in Hrest as (ns & Hlen & Hns). exists (n :: ns).
    split; [simpl; congruence|].
    exact (batches_ran_app opt ctx [n] ns st st1 st' Hn Hns).
Qed.


Lemma sampling_loop_ran opt ctx st st' :
  sampling_loop opt ctx st = Ok st' ->
  exists ns,
    length ns = (Z.to_nat (opt_n_iter opt) * length (ctx_data ctx))%nat /\
    batches_ran opt ctx ns st st'.
Proof.
  assert (forall (iterations : list nat) st,
            for_each
              (fun _ st => for_each (sample_prompts opt ctx) (ctx_data ctx) st)
              iterations st = Ok st' ->
            exists ns,
              length ns = (length iterations * length (ctx_data ctx))%nat /\
              batches_ran opt ctx ns st st') as Hall.
  { induction iterations as [|n iterations IH]; intros st0; simpl.
    - intros [= <-]. exists []. split; [done|apply batches_ran_nil].
    - intros (st1 & Hone & Hrest)%bind_Ok.
      apply for_each_ran in Hone as (ns1 & Hlen1 & Hns1).
      apply IH in Hrest as (ns2 & Hlen2 & Hns2). exists (ns1 ++ ns2).
      split; [rewrite length_app; lia|].
      by apply (batches_ran_app opt ctx ns1 ns2 st0 st1 st'). }
  unfold sampling_loop. intros Hloop. apply Hall in Hloop.
  by rewrite length_seq in Hloop.
Qed.


(** *** The grid and the whole run *)

Lemma generate_Ok opt ctx st st' :
  generate opt ctx st = Ok st' ->
  exists st1,
    sampling_loop opt ctx st = Ok st1 /\
    base_count st' = base_count st1 /\
    samples_dir (fs st') = samples_dir (fs st1) /\
    trace st' =
      trace st1 ++
      (if opt_skip_grid opt then []
       else [EvSave OutRoot (grid_name (grid_count st1))]) /\
    grid_count st' =
      grid_count st1 + (if opt_skip_grid opt then 0 else 1).
Proof.
  unfold generate. intros (st1 & Hloop & Hgrid)%bind_Ok. exists st1.
  split; [done|]. destruct (opt_skip_grid opt).
  - injection Hgrid as <-. by rewrite app_nil_r, Z.add_0_r.
  - unfold save_grid in Hgrid.
    apply bind_Ok in Hgrid as ([] & _ & (st2 & Hsave & [= <-])%bind_Ok).
    unfold img_save_root in Hsave.
    apply bind_Ok in Hsave as (fs' & Hwrite & [= <-]). simpl.
    unfold write_root in Hwrite.
    destruct (root_rest (fs st1) !! grid_name (grid_count st1)) as [[|?]|];
      try discriminate; by injection Hwrite as <-.
Qed.

(** The options that [--laion400m] leaves alone. *)
Lemma apply_laion400m_fields opt :
  let opt' := apply_laion400m opt in
  opt_skip_save opt' = opt_skip_save opt /\
  opt_skip_grid opt' = opt_skip_grid opt /\
  opt_fixed_code opt' = opt_fixed_code opt /\
  opt_n_iter opt' = opt_n_iter opt /\
  opt_n_samples opt' = opt_n_samples opt /\
  opt_H opt' = opt_H opt /\ opt_W opt' = opt_W opt /\
  opt_C opt' = opt_C opt /\ opt_f opt' = opt_f opt /\
  opt_seed opt' = opt_seed opt /\
  opt_dpm_solver opt' = opt_dpm_solver opt /\ opt_plms opt' = opt_plms opt.
Proof. unfold apply_laion400m. by destruct (opt_laion400m opt). Qed.

(** What [setup] has established when it returns. *)
Lemma setup_Ok opt root0 ctx st0 :
  setup opt root0 = Ok (ctx, st0) ->
  let opt' := apply_laion400m opt in
  exists config g1 out,
    OmegaConf_load (opt_config opt') = Ok config /\
    load_and_place config (opt_ckpt opt') (seed_everything (opt_seed opt'))
      = Ok (ctx_model ctx, ctx_device ctx, g1) /\
    ctx_sampler ctx = select_sampler opt' (ctx_model ctx) /\
    prompt_data opt' = Ok (ctx_data ctx) /\
    open_outdir root0 = Ok out /\
    fs st0 = out /\
    base_count st0 = len_listdir Samples out /\
    grid_count st0 = len_listdir_outpath out - 1 /\
    all_samples st0 = [] /\
    if opt_fixed_code opt' then
      exists h w t,
        floordiv (opt_H opt') (opt_f opt') = Ok h /\
        floordiv (opt_W opt') (opt_f opt') = Ok w /\
        torch_randn [opt_n_samples opt'; opt_C opt'; h; w] (ctx_device ctx) g1
          = Ok (t, gen st0) /\
        ctx_start_code ctx = Some t /\
        trace st0 = [EvRandn [opt_n_samples opt'; opt_C opt'; h; w]
                       (ctx_device ctx)]
    else ctx_start_code ctx = None /\ trace st0 = [] /\ gen st0 = g1.
Proof.
  unfold setup. cbv zeta. set (opt' := apply_laion400m opt).
  intros (config & Hconfig & Hrest)%bind_Ok.
  apply bind_Ok in Hrest as ([[m dev] g1] & Hplace & Hrest).
  apply bind_Ok in Hrest as (data & Hdata & Hrest).
  apply bind_Ok in Hrest as (out & Hout & Hrest).
  apply bind_Ok in Hrest as ([[start_code g2] tr] & Hcode & [= <- <-]).
  exists config, g1, out. simpl. repeat (split; [done|]).
  destruct (opt_fixed_code opt').
  - apply bind_Ok in Hcode as (h & Hh & (w & Hw & Hcode)%bind_Ok).
    apply bind_Ok in Hcode as ([t g3] & Hrandn & [= <- <- <-]).
    by exists h, w, t.
  - by injection Hcode as <- <- <-.
Qed.

End LoopFacts.

(** ** Two runs of the small backend *)




(** ** The counters of a run *)

Section RunFacts.
Context `{Backend}.


(** No file has been saved when the loop starts. *)
Lemma setup_trace opt root0 ctx st0 :
  setup opt root0 = Ok (ctx, st0) ->
  forall dir, saves_in dir (trace st0) = [] /\ sampler_noise (trace st0) = [].
Proof.
  intros Hsetup dir.
  destruct (setup_Ok opt root0 ctx st0 Hsetup)
    as (config & g1 & out & _ & _ & _ & _ & _ & _ & _ & _ & _ & Hcode).
  destruct (opt_fixed_code (apply_laion400m opt)).
  - destruct Hcode as (h & w & t & _ & _ & _ & _ & ->). done.
  - destruct Hcode as (_ & -> & _). done.
Qed.



End RunFacts.


(** ** The initial noise *)

Section NoiseFacts.
Context `{Backend}.






End NoiseFacts.


(** ** The grid counter *)

Section GridFacts.
Context `{Backend}.

(** C7: the grid counter is seeded apart from the sample counter: the
    sample counter from the number of entries of [samples], the grid
    counter from the number of entries of the output directory minus one.
    That directory holds the three subdirectories beside everything else,
    so the seed is the number of its other entries plus 2: two more than
    the number of grids when those entries are grids.  A run that saves its
    grid names it by the seed and ends with the counter one higher; a run
    with [--skip_grid] saves none and leaves the counter alone. *)
Theorem grid_file_counter opt root0 st' :
  main opt root0 = Ok st' ->
  exists ctx st0 out,
    setup opt root0 = Ok (ctx, st0) /\
    open_outdir root0 = Ok out /\
    base_count st0 = len_listdir Samples out /\
    grid_count st0 = len_listdir_outpath out - 1 /\
    grid_count st0 = Z.of_nat (size (root_rest out)) + 2 /\
    saves_in OutRoot (trace st') =
      (if opt_skip_grid opt then [] else [grid_name (grid_count st0)]) /\
    grid_count st' =
      grid_count st0 + (if opt_skip_grid opt then 0 else 1).
Proof.
  intros Hmain. unfold main in Hmain.
  apply bind_Ok in Hmain as ([ctx st0] & Hsetup & Hgen).
  destruct (setup_Ok _ _ _ _ Hsetup)
    as (c & g1 & out & _ & _ & _ & _ & Hout & _ & Hbase & Hgrid & _).
  destruct (apply_laion400m_fields opt) as (_ & Eg & _).
  apply generate_Ok in Hgen as (st1 & Hloop & _ & _ & Htr & Hcount).
  apply sampling_loop_ran in Hloop as (ns & _ & Hran).
  destruct Hran as [_ _ Hg _ _ (delta & Hd & _ & Hroot & _)].
  exists ctx, st0, out. do 4 (split; [done|]).
  split; [rewrite Hgrid; unfold len_listdir_outpath; lia|].
  rewrite Eg, Hg in Htr, Hcount. rewrite Hcount. split; [|done].
  rewrite Htr, Hd, !saves_in_app, Hroot.
  destruct (setup_trace _ _ _ _ Hsetup OutRoot) as [-> _]. simpl.
  destruct (opt_skip_grid opt); [done|].
  reflexivity.
Qed.

End GridFacts.

Lemma grid_file_counter_witness :
  exists st' ctx st0 out,
    @main _ (Toy.backend true true []) Toy.one_sample Toy.earlier_run = Ok st' /\
    @setup _ (Toy.backend true true []) Toy.one_sample Toy.earlier_run
      = Ok (ctx, st0) /\
    open_outdir Toy.earlier_run = Ok out /\
    base_count st0 = 1 /\
    grid_count st0 = 3 /\
    saves_in OutRoot (trace st') = ["grid-0003.png"]%string /\
    grid_count st' = 4.
Proof.
  eexists _.
  assert (@main _ (Toy.backend true true []) Toy.one_sample Toy.earlier_run
          = Ok _) as Hmain by (vm_compute; reflexivity).
  destruct (@grid_file_counter _ (Toy.backend true true [])
              Toy.one_sample Toy.earlier_run _ Hmain)
    as (ctx & st0 & out & Hsetup & Hout & Hbase & _ & Hgrid & Hsaves & Hend).
  exists ctx, st0, out. split; [exact Hmain|]. split; [exact Hsetup|].
  split; [exact Hout|].
  vm_compute in Hout. injection Hout as <-.
  rewrite Hgrid in Hsaves, Hend.
  split; [exact Hbase|]. split; [exact Hgrid|]. split; [exact Hsaves|].
  exact Hend.
Defined.

(** * Further properties of the code *)

(** ** More on the prompt batcher *)

Section ChunkMore.
Context {A : Type}.
Implicit Types (it b : list A) (size : nat).







End ChunkMore.



(** ** More on the options and the loader *)

Section SetupMore.
Context `{Backend}.


Lemma main_through_laion400m opt opt' root0 :
  apply_laion400m opt = apply_laion400m opt' ->
  main opt root0 = main opt' root0.
Proof. intros Heq. unfold main, setup. cbv zeta. by rewrite Heq. Qed.

(** X5: [--laion400m] is a preset: a run with it does not depend on what
    [--config], [--ckpt] and [--outdir] were given, and applying the
    preset twice is applying it once. *)
Theorem laion400m_overrides (opt opt' : options) root0 :
  opt_laion400m opt = true ->
  same_except_paths opt opt' ->
  opt_config (apply_laion400m opt)
    = "configs/latent-diffusion/txt2img-1p4B-eval.yaml"%string /\
  opt_ckpt (apply_laion400m opt)
    = "models/ldm/text2img-large/model.ckpt"%string /\
  opt_outdir (apply_laion400m opt)
    = "outputs/txt2img-samples-laion400m"%string /\
  apply_laion400m (apply_laion400m opt) = apply_laion400m opt /\
  main opt root0 = main opt' root0.
Proof.
  intros Hflag Hsame.
  assert (apply_laion400m opt = apply_laion400m opt') as Heq.
  { unfold same_except_paths in Hsame. unfold apply_laion400m.
    destruct opt, opt'. simpl in *.
    destruct Hsame as (-> & -> & -> & -> & -> & -> & -> & -> & -> & -> & ->
                       & -> & -> & -> & -> & -> & -> & -> & -> & ->).
    by rewrite Hflag. }
  do 3 (split; [unfold apply_laion400m; by rewrite Hflag|]). split.
  - unfold apply_laion400m. rewrite Hflag. simpl. by rewrite ?Hflag.
  - by apply main_through_laion400m.
Qed.

(** X6: what the loader does with a bad checkpoint.  When reading the file
    raises, the loader raises the same; when the dictionary read has no
    ["state_dict"] entry, the loader raises [KeyError]. *)
Theorem load_model_bad_checkpoint config ckpt verbose g :
  (forall e, torch_load ckpt = Raise e ->
     load_model_from_config config ckpt verbose g = Raise e) /\
  (forall pl_sd, torch_load ckpt = Ok pl_sd ->
     pl_sd !! "state_dict"%string = None ->
     load_model_from_config config ckpt verbose g = Raise KeyError).
Proof.
  unfold load_model_from_config. split.
  - by intros e ->.
  - intros pl_sd -> Hmissing. simpl. by rewrite Hmissing.
Qed.



End SetupMore.

Lemma laion400m_overrides_witness :
  opt_config (apply_laion400m Toy.laion_run)
    = "configs/latent-diffusion/txt2img-1p4B-eval.yaml"%string /\
  opt_ckpt (apply_laion400m Toy.laion_run)
    = "models/ldm/text2img-large/model.ckpt"%string /\
  opt_outdir (apply_laion400m Toy.laion_run)
    = "outputs/txt2img-samples-laion400m"%string /\
  apply_laion400m (apply_laion400m Toy.laion_run)
    = apply_laion400m Toy.laion_run /\
  @main _ (Toy.backend true true []) Toy.laion_run None
    = @main _ (Toy.backend true true []) Toy.laion_run_other_paths None.
Proof.
  apply (@laion400m_overrides _ (Toy.backend true true [])
           Toy.laion_run Toy.laion_run_other_paths None).
  - reflexivity.
  - unfold same_except_paths. repeat split.
Defined.


(** ** More on the safety filter *)

Section SafetyMore.
Context `{Backend}.
Implicit Types (x : ndarray) (xs : list ndarray) (flags : list bool).

(** X8: the edges of [check_safety].  When the classifier returns a
    number of verdicts that is not the number of images, the assertion
    fails; when it flags no image, the batch it returned comes back as it
    is, with its verdicts. *)
Theorem check_safety_edges (x_image : list ndarray) :
  (length (safety_checker x_image).1 <> length (safety_checker x_image).2 ->
     check_safety x_image = Raise AssertionError) /\
  (length (safety_checker x_image).1 = length (safety_checker x_image).2 ->
   (forall flag, flag ∈ (safety_checker x_image).2 -> flag = false) ->
     check_safety x_image = Ok (safety_checker x_image)).
Proof.
  destruct (safety_checker x_image) as [xc flags] eqn:Hchk. simpl. split.
  - intros Hne. unfold check_safety. rewrite Hchk.
    by rewrite bool_decide_eq_false_2.
  - intros Hlen Hclean.
    destruct (check_safety_Ok x_image xc flags Hchk Hlen)
      as (xs' & -> & Hlen' & Hxs').
    do 2 f_equal. apply list_eq. intros i.
    destruct (xc !! i) as [x|] eqn:Hx.
    + rewrite (Hxs' i x Hx). destruct (flags !! i) as [flag|] eqn:Hflag; [|done].
      rewrite (Hclean flag); [done|]. apply list_elem_of_lookup. eauto.
    + apply lookup_ge_None. apply lookup_ge_None in Hx. lia.
Qed.

(** What [load_replacement] returns for an array depends on the array
    through its shape and its dtype only, unless it returns the array. *)
Lemma load_replacement_congr x x' :
  shape x' = shape x -> dtype_of x' = dtype_of x ->
  load_replacement x' = x' \/ load_replacement x' = load_replacement x.
Proof.
  intros Hs Hd. unfold load_replacement. rewrite Hs, Hd.
  match goal with
  | |- try_except ?m _ = _ \/ _ => destruct m as [y|e]
  end; simpl; auto.
Qed.

(** X9: replacing twice is replacing once: [load_replacement] applied to
    its own result returns that result. *)
Theorem load_replacement_idempotent x :
  load_replacement (load_replacement x) = load_replacement x.
Proof.
  destruct (load_replacement_congr x (load_replacement x)) as [Heq|Heq].
  - apply load_replacement_shape.
  - apply load_replacement_dtype.
  - exact Heq.
  - exact Heq.
Qed.

End SafetyMore.

(** ** More on file names *)

(** X12: counter values that differ give file names that differ, for
    samples, preview frames and grids alike, also beyond the width of the
    zero filling (five and four digits). *)
Theorem file_names_distinct (a b : Z) :
  0 <= a -> 0 <= b ->
  (sample_name a = sample_name b -> a = b) /\
  (grid_name a = grid_name b -> a = b) /\
  (5 <= String.length (format_int 5 a))%nat /\
  (4 <= String.length (format_int 4 a))%nat.
Proof.
  intros Ha Hb. split; [by apply sample_name_inj|].
  split; [by apply grid_name_inj|].
  unfold format_int. destruct (Z.ltb_spec a 0) as [|_]; [lia|].
  rewrite !length_zfill. lia.
Qed.

Lemma file_names_distinct_witness :
  (sample_name 99999 = sample_name 100000 -> 99999 = 100000) /\
  (grid_name 99999 = grid_name 100000 -> 99999 = 100000) /\
  (5 <= String.length (format_int 5 99999))%nat /\
  (4 <= String.length (format_int 4 99999))%nat.
Proof. apply (file_names_distinct 99999 100000); lia. Defined.

(** ** More on the video assembler *)

Section VideoMore.
Import MakeVideo.
Implicit Types (image_folder : folder) (images : list string) (v : video).

Lemma listdir_filter image_folder :
  filter (fun img => endswith img ".png" = true) (listdir image_folder)
  = listdir (filter is_png image_folder).
Proof.
  unfold listdir. induction image_folder as [|[name content] rest IH];
    [done|].
  change (((name, content) :: rest).*1) with (name :: rest.*1).
  destruct (decide (endswith name ".png" = true)) as [Hpng|Hother].
  - rewrite filter_cons_True by done.
    rewrite (filter_cons_True is_png) by done.
    rewrite fmap_cons. simpl. by rewrite IH.
  - rewrite filter_cons_False by done.
    by rewrite (filter_cons_False is_png) by done.
Qed.

Lemma imread_filter image_folder name :
  endswith name ".png" = true ->
  imread (filter is_png image_folder) name = imread image_folder name.
Proof.
  intros Hname. induction image_folder as [|[name' content] rest IH];
    [done|].
  destruct (decide (endswith name' ".png" = true)) as [Hpng|Hother].
  - rewrite (filter_cons_True is_png) by done. cbn [imread].
    destruct (name' =? name)%string; [done|exact IH].
  - rewrite (filter_cons_False is_png) by done. cbn [imread].
    destruct (String.eqb_spec name' name) as [->|_]; [done|exact IH].
Qed.

Lemma write_all_filter image_folder images v :
  Forall (fun img => endswith img ".png" = true) images ->
  write_all (filter is_png image_folder) images v
  = write_all image_folder images v.
Proof.
  intros Hall. revert v. induction Hall as [|image images Hpng _ IH];
    intros v; [done|].
  simpl. rewrite imread_filter by done.
  destruct (write (imread image_folder image) v); simpl; [apply IH|done].
Qed.

Lemma png_listing_filter image_folder :
  filter (fun img => endswith img ".png" = true)
    (listdir (filter is_png image_folder))
  = filter (fun img => endswith img ".png" = true) (listdir image_folder).
Proof.
  induction image_folder as [|[name content] rest IH]; [done|].
  destruct (decide (endswith name ".png" = true)) as [Hpng|Hother].
  - rewrite (filter_cons_True is_png) by done.
    change (listdir ((name, content) :: filter is_png rest))
      with (name :: listdir (filter is_png rest)).
    change (listdir ((name, content) :: rest)) with (name :: listdir rest).
    rewrite !filter_cons_True by done. f_equal. exact IH.
  - rewrite (filter_cons_False is_png) by done.
    change (listdir ((name, content) :: rest)) with (name :: listdir rest).
    rewrite filter_cons_False by done. exact IH.
Qed.

Lemma write_video_eq (name : string) image_folder :
  write_video name image_folder =
  let images := filter (fun img => endswith img ".png" = true)
                  (listdir image_folder) in
  match images with
  | [] => Raise IndexError
  | first :: _ =>
      match imread image_folder first with
      | None => Raise AttributeError
      | Some fr =>
          write_all image_folder images
            {| video_name := name; fourcc := 0; fps := 5;
               frame_size := (width fr, height fr); frames := [] |}
      end
  end.
Proof.
  unfold write_video. cbv zeta.
  destruct (filter _ (listdir image_folder)) as [|first rest]; [done|].
  simpl. by destruct (imread image_folder first).
Qed.

(** X10: entries whose name does not end in [.png] play no part: the video
    written for a folder is the video written for the folder without
    them. *)
Theorem write_video_ignores_other_files (name : string) image_folder :
  write_video name image_folder
  = write_video name (filter is_png image_folder).
Proof.
  rewrite !write_video_eq. cbv zeta. rewrite png_listing_filter.
  set (images := filter (fun img => endswith img ".png" = true)
                   (listdir image_folder)).
  assert (Forall (fun img => endswith img ".png" = true) images) as Hall.
  { apply Forall_forall. intros img Hin.
    by apply list_elem_of_filter in Hin as [? _]. }
  destruct images as [|first rest]; [done|].
  rewrite imread_filter by (by inversion Hall).
  destruct (imread image_folder first) as [fr|]; [|done].
  by rewrite write_all_filter.
Qed.

(** X11: when the first listed [.png] entry cannot be decoded, reading its
    shape raises [AttributeError], whatever the other entries are. *)
Theorem write_video_unreadable_first (name : string) image_folder first :
  filter (fun img => endswith img ".png" = true) (listdir image_folder)
    !! 0%nat = Some first ->
  imread image_folder first = None ->
  write_video name image_folder = Raise AttributeError.
Proof.
  intros Hfirst Hread. unfold write_video. rewrite Hfirst. simpl.
  by rewrite Hread.
Qed.

End VideoMore.

Lemma write_video_unreadable_first_witness :
  MakeVideo.write_video "video1.avi"
    (("broken.png"%string, None) :: Toy.frames_folder)
  = Raise AttributeError.
Proof.
  apply (write_video_unreadable_first "video1.avi"
           (("broken.png"%string, None) :: Toy.frames_folder)
           "broken.png"); reflexivity.
Defined.

(** ** More on the run *)

Section RunMore.
Context `{Backend}.

(** X13: with [--skip_save] a run that completes has saved no file into
    [samples]: the directory holds what it held, and the sample counter
    ends where it started. *)
Theorem skip_save_writes_no_samples opt root0 st' :
  opt_skip_save opt = true ->
  main opt root0 = Ok st' ->
  exists out,
    open_outdir root0 = Ok out /\
    saves_in (OutSub Samples) (trace st') = [] /\
    base_count st' = len_listdir Samples out /\
    samples_dir (fs st') = samples_dir out.
Proof.
  intros Hskip Hmain. unfold main in Hmain.
  apply bind_Ok in Hmain as ([ctx st0] & Hsetup & Hgen).
  destruct (setup_Ok _ _ _ _ Hsetup)
    as (c & g1 & out & _ & _ & _ & _ & Hout & Hfs & Hbase & _).
  destruct (apply_laion400m_fields opt) as (Es & _).
  apply generate_Ok in Hgen as (st1 & Hloop & Hb & Hdir & Htr & _).
  apply sampling_loop_ran in Hloop as (ns & _ & Hran).
  destruct Hran as [_ Hb1 _ _ _ (delta & Hd & _ & _ & _ & Hs & Hd1 & _)].
  rewrite Es, Hskip in Hb1, Hs. rewrite Hs in Hd1. simpl in Hd1.
  rewrite (left_id_L ∅ (∪)) in Hd1.
  exists out. split; [done|]. split; [|split].
  - rewrite Htr, Hd, !saves_in_app, Hs.
    destruct (setup_trace _ _ _ _ Hsetup (OutSub Samples)) as [-> _].
    by destruct (opt_skip_grid (apply_laion400m opt)).
  - congruence.
  - congruence.
Qed.

(** X14: the preview frames of a batch.  When the two accumulators are
    empty at the start of a batch, as the previous batch leaves them, the
    frames saved into [process] and [process2] are the decoded snapshots
    that the callback received during this sampler call, numbered from 0,
    and both accumulators are empty again afterwards. *)
Theorem batch_preview_frames opt ctx prompts st st' :
  processList st = [] -> process2List st = [] ->
  sample_prompts opt ctx prompts st = Ok st' ->
  exists args steps z g delta,
    sample (ctx_sampler ctx) args (gen st) = (steps, z, g) /\
    arg_x_T args = ctx_start_code ctx /\
    trace st' = trace st ++ delta /\
    saves_in (OutSub Process) delta =
      sample_name <$>
        seqZ 0 (Z.of_nat (length (concat (decode_first_stage (ctx_model ctx)
                                            <$> steps.*1)))) /\
    saves_in (OutSub Process2) delta =
      sample_name <$>
        seqZ 0 (Z.of_nat (length (concat (decode_first_stage (ctx_model ctx)
                                            <$> steps.*2)))) /\
    processList st' = [] /\ process2List st' = [] /\ gen st' = g.
Proof.
  intros Hp Hp2. unfold sample_prompts.
  intros (h & Hh & (w & Hw & Hrest)%bind_Ok)%bind_Ok.
  rewrite run_sampler_eq in Hrest.
  match type of Hrest with
  | context [sample ?s ?a ?g] =>
      set (args := a) in *;
      destruct (sample s args g) as [[steps z] g'] eqn:Hsample
  end.
  cbv beta iota zeta in Hrest. rewrite saveImages_eq in Hrest.
  apply bind_Ok in Hrest as ([xc flags] & _ & Hst').
  injection Hst' as <-.
  exists args, steps, z, g'.
  destruct (opt_skip_save opt), (opt_skip_grid opt);
    rewrite ?save_samples_eq; cbv zeta.
  all: eexists; split; [exact Hsample|]; split; [reflexivity|].
  all: project_state; rewrite Hp, Hp2; simpl app.
  all: split; [rewrite <-!app_assoc; reflexivity|].
  all: rewrite ?saves_in_app, ?saves_in_saves.
  all: simpl; rewrite ?app_nil_r.
  all: done.
Qed.

Lemma for_each_no_data (body : list string -> state -> result state)
    (iterations : list nat) (st : state) :
  for_each (fun _ st => for_each body [] st) iterations st = Ok st.
Proof. induction iterations as [|n iterations IH]; [done|]. simpl. exact IH. Qed.

(** X16: a run without batches.  With no iteration ([--n_iter] 0 or less)
    or no prompt batch, the loop calls the sampler not once; the grid
    stage then has nothing to stack and raises [RuntimeError], unless
    [--skip_grid] is set, in which case nothing at all happens. *)
Theorem generate_no_batches opt ctx st :
  opt_n_iter opt <= 0 \/ ctx_data ctx = [] ->
  all_samples st = [] ->
  sampling_loop opt ctx st = Ok st /\
  generate opt ctx st =
    if opt_skip_grid opt then Ok st else Raise RuntimeError.
Proof.
  intros Hnone Hall.
  assert (sampling_loop opt ctx st = Ok st) as Hloop.
  { unfold sampling_loop. destruct Hnone as [Hn|Hdata].
    - by replace (Z.to_nat (opt_n_iter opt)) with 0%nat by lia.
    - rewrite Hdata. apply for_each_no_data. }
  split; [done|]. unfold generate. rewrite Hloop. simpl.
  destruct (opt_skip_grid opt); [done|].
  unfold save_grid. by rewrite Hall.
Qed.

End RunMore.

Lemma skip_save_writes_no_samples_witness :
  exists st' out,
    @main _ (Toy.backend true true []) Toy.skip_save_run Toy.earlier_run
      = Ok st' /\
    open_outdir Toy.earlier_run = Ok out /\
    saves_in (OutSub Samples) (trace st') = [] /\
    base_count st' = len_listdir Samples out /\
    samples_dir (fs st') = samples_dir out.
Proof.
  eexists _.
  assert (@main _ (Toy.backend true true []) Toy.skip_save_run
            Toy.earlier_run = Ok _) as Hmain by (vm_compute; reflexivity).
  destruct (@skip_save_writes_no_samples _ (Toy.backend true true [])
              Toy.skip_save_run Toy.earlier_run _ eq_refl Hmain)
    as (out & Hout & Hrest).
  exists out. split; [exact Hmain|]. split; [exact Hout|]. exact Hrest.
Defined.

Lemma batch_preview_frames_witness :
  exists ctx st0 st' args steps z g delta,
    @setup _ (Toy.backend true true []) Toy.one_sample None = Ok (ctx, st0) /\
    @sample_prompts _ (Toy.backend true true []) Toy.one_sample ctx
      ["x"]%string st0 = Ok st' /\
    @sample _ (Toy.backend true true []) (ctx_sampler ctx) args (gen st0)
      = (steps, z, g) /\
    trace st' = trace st0 ++ delta /\
    saves_in (OutSub Process) delta =
      sample_name <$>
        seqZ 0 (Z.of_nat
                  (length (concat
                             (@decode_first_stage _ (Toy.backend true true [])
                                (ctx_model ctx) <$> steps.*1)))) /\
    processList st' = [] /\ process2List st' = [].
Proof.
  eexists _, _, _.
  assert (@setup _ (Toy.backend true true []) Toy.one_sample None = Ok _)
    as Hsetup by (vm_compute; reflexivity).
  lazymatch type of Hsetup with
  | _ = Ok (?c, ?s) =>
      assert (@sample_prompts _ (Toy.backend true true []) Toy.one_sample c
                ["x"]%string s = Ok _) as Hbatch by (vm_compute; reflexivity)
  end.
  pose proof (fun Hl Hl2 =>
                @batch_preview_frames _ (Toy.backend true true [])
                  Toy.one_sample _ ["x"]%string _ _ Hl Hl2 Hbatch) as Hframes.
  destruct (Hframes eq_refl eq_refl)
    as (args & steps & z & g & delta & Hsample & _ & Htrace & Hp & _
        & Hl & Hl2 & _).
  exists args, steps, z, g, delta.
  split; [exact Hsetup|]. split; [exact Hbatch|]. split; [exact Hsample|].
  split; [exact Htrace|]. split; [exact Hp|]. split; [exact Hl|exact Hl2].
Defined.

Lemma generate_no_batches_witness :
  exists ctx st0,
    @setup _ (Toy.backend true true []) (Toy.with_batches 0 1 None) None
      = Ok (ctx, st0) /\
    @sampling_loop _ (Toy.backend true true []) (Toy.with_batches 0 1 None)
      ctx st0 = Ok st0 /\
    @generate _ (Toy.backend true true []) (Toy.with_batches 0 1 None) ctx st0
      = Raise RuntimeError.
Proof.
  eexists _, _.
  assert (@setup _ (Toy.backend true true []) (Toy.with_batches 0 1 None) None
          = Ok _) as Hsetup by (vm_compute; reflexivity).
  split; [exact Hsetup|].
  apply (@generate_no_batches _ (Toy.backend true true [])
           (Toy.with_batches 0 1 None)).
  - left. simpl. lia.
  - reflexivity.
Defined.

(** ** More on the output directory *)

Section OutdirMore.
Implicit Types (root : gmap string node).

Lemma size_without_subdirs root :
  Z.of_nat (size (delete "samples"%string
                    (delete "process"%string
                       (delete "process2"%string root)))) + 3
  = Z.of_nat (size (dom root ∪
                      ({[ "samples"; "process"; "process2" ]} : gset string)))%string.
Proof.
  rewrite <-(size_dom (delete _ _)), !dom_delete_L.
  set (X := dom root).
  set (Y := ({[ "samples"; "process"; "process2" ]} : gset string)%string).
  assert (X ∪ Y = (X ∖ {["process2"%string]} ∖ {["process"%string]}
                     ∖ {["samples"%string]}) ∪ Y) as ->.
  { apply set_eq. intros x. rewrite !elem_of_union, !elem_of_difference.
    unfold Y. rewrite !elem_of_union, !elem_of_singleton.
    destruct (decide (x = "samples"%string));
      destruct (decide (x = "process"%string));
      destruct (decide (x = "process2"%string)); tauto. }
  rewrite (size_union (C:=gset string) (H2:=gset_union) _ Y).
  - replace (size Y) with 3%nat by reflexivity. lia.
  - apply elem_of_disjoint. intros x. rewrite !elem_of_difference.
    unfold Y. rewrite !elem_of_union, !elem_of_singleton. tauto.
Qed.

(** X15: the output directory after the [os.makedirs] calls.  A regular
    file named like one of the three subdirectories makes the run raise
    [FileExistsError].  Otherwise each subdirectory holds what it held (or
    nothing when it was created), and the number of entries of the output
    directory is the number of its old entries and of the three
    subdirectories taken together; an output directory that did not exist
    is like an empty one. *)
Theorem open_outdir_entries root :
  (forall d, root !! subdir_name d = Some File ->
     open_outdir (Some root) = Raise FileExistsError) /\
  ((forall d, root !! subdir_name d <> Some File) ->
   exists out,
     open_outdir (Some root) = Ok out /\
     (forall d, listing d out =
                match root !! subdir_name d with
                | Some (Dir names) => names
                | _ => ∅
                end) /\
     len_listdir_outpath out =
       Z.of_nat (size (dom root ∪
                         ({[ "samples"; "process"; "process2" ]}
                            : gset string)))%string) /\
  open_outdir None = open_outdir (Some ∅).
Proof.
  split; [|split; [|done]].
  - intros d Hd. unfold open_outdir, makedirs_sub. simpl.
    destruct d; simpl in Hd.
    + by rewrite Hd.
    + destruct (root !! "samples"%string) as [[|?]|]; simpl;
        by rewrite ?Hd.
    + destruct (root !! "samples"%string) as [[|?]|]; simpl; [done| |];
        destruct (root !! "process"%string) as [[|?]|]; simpl;
        by rewrite ?Hd.
  - intros Hdirs.
    pose proof (Hdirs Samples) as Hs. pose proof (Hdirs Process) as Hp.
    pose proof (Hdirs Process2) as Hp2. simpl in Hs, Hp, Hp2.
    unfold open_outdir, makedirs_sub. simpl.
    destruct (root !! "samples"%string) as [[|s]|] eqn:Es; [done| |];
      destruct (root !! "process"%string) as [[|p]|] eqn:Ep; [done| | |done| |];
      destruct (root !! "process2"%string) as [[|p2]|] eqn:Ep2; try done.
    all: simpl; eexists; split; [reflexivity|]; split.
    all: try (intros []; simpl; by rewrite ?Es, ?Ep, ?Ep2).
    all: unfold len_listdir_outpath; simpl; apply size_without_subdirs.
Qed.

End OutdirMore.
